(** * ai_resume_screener: the upload form and the results view

  A shallow embedding of the logic of the React front end:
  - [frontend/src/api.js]                    (module [Api])
  - [frontend/src/components/UploadForm.jsx] (module [UploadForm])
  - [frontend/src/components/Results.jsx]    (modules [Results] and
    [ResultsCards])
  - [frontend/src/App.jsx]                   (module [App])

  JavaScript strings are sequences of UTF-16 code units, arrays that
  the code shares or sorts in place live in an explicit store, and the
  [useState] setters, the callback prop and the network call of the
  form are recorded as a log of effects in program order. *)

From stdpp Require Import base numbers list gmap strings.
From Stdlib Require Import ZArith Lia Sorted Floats.SpecFloat.

Local Open Scope Z_scope.

(** ** JavaScript strings *)

Module Js.

(** A string is the list of its UTF-16 code units; [length] is the
    [.length] of JavaScript. *)
Definition jsstring : Type := list N.

(** A literal of the source that holds ASCII characters only. *)
Fixpoint lit (s : string) : jsstring :=
  match s with
  | EmptyString => []
  | String a s' => Ascii.N_of_ascii a :: lit s'
  end.

(** ECMAScript WhiteSpace and LineTerminator code points, the characters
    that [String.prototype.trim] strips: TAB, LF, VT, FF, CR, SP, NBSP,
    OGHAM SPACE MARK, EN QUAD .. HAIR SPACE, LS, PS, NNBSP, MMSP,
    IDEOGRAPHIC SPACE and ZWNBSP. All of them are in the basic plane, so
    the test works on code units. *)
Definition isWhiteSpace (c : N) : bool :=
  ((9 <=? c) && (c <=? 13) || (c =? 32) || (c =? 160) || (c =? 5760)
   || (8192 <=? c) && (c <=? 8202) || (c =? 8232) || (c =? 8233)
   || (c =? 8239) || (c =? 8287) || (c =? 12288) || (c =? 65279))%N.

Fixpoint trimStart (s : jsstring) : jsstring :=
  match s with
  | [] => []
  | c :: s' => if isWhiteSpace c then trimStart s' else s
  end.

Definition trimEnd (s : jsstring) : jsstring :=
  reverse (trimStart (reverse s)).

(** [s.trim()] *)
Definition trim (s : jsstring) : jsstring := trimEnd (trimStart s).

(** ToBoolean on a string: only the empty string is falsy. *)
Definition truthy (s : jsstring) : bool :=
  match s with [] => false | _ :: _ => true end.

(** [a || b] on strings. *)
Definition or_else (a b : jsstring) : jsstring :=
  if truthy a then a else b.

(** [a || b] where [a] may be [undefined]. *)
Definition opt_or_else (a : option jsstring) (b : jsstring) : jsstring :=
  match a with
  | Some s => or_else s b
  | None => b
  end.

End Js.

Import Js.

(** ** JavaScript numbers

  Scores, sums of scores and lengths are integers, and [Z] stands for
  them: double arithmetic on integers is exact while the magnitudes
  stay below 2^53. The quotient of two such integers is a double in
  general; [divide] is IEEE 754 binary64 division of two integers
  (round to nearest, ties to even), and [toFixed1] is
  [Number.prototype.toFixed] with one fraction digit. *)

Module Number.

Inductive double : Type :=
| NaN
| Infinity (negative : bool)
| Finite (negative : bool) (m e : Z).   (* (-1)^negative * m * 2^e *)

(** The exponent [e] with 2^52 <= p / (q * 2^e) < 2^53, for p, q > 0. *)
Definition exponent (p q : Z) : Z :=
  let d := Z.log2 p - Z.log2 q in
  if (if 0 <=? d then q * 2 ^ d <=? p else q <=? p * 2 ^ (- d))
  then d - 52 else d - 53.

(** [a / b] rounded to the nearest integer, ties to even (a >= 0, b > 0). *)
Definition roundTiesToEven (a b : Z) : Z :=
  let m := a / b in
  let r := a mod b in
  if 2 * r <? b then m
  else if b <? 2 * r then m + 1
  else if Z.even m then m else m + 1.

(** The 53-bit significand and the exponent of the double nearest to
    [p / q], for integers p, q > 0 (the quotient of two integers below
    2^53 is in the normal range). *)
Definition roundQuotient (p q : Z) : Z * Z :=
  let e := exponent p q in
  let m := if 0 <=? e then roundTiesToEven p (q * 2 ^ e)
           else roundTiesToEven (p * 2 ^ (- e)) q in
  if m =? 2 ^ 53 then (2 ^ 52, e + 1) else (m, e).

(** [a / b] on integer operands. *)
Definition divide (a b : Z) : double :=
  if b =? 0 then
    if a =? 0 then NaN else Infinity (a <? 0)
  else if a =? 0 then Finite (b <? 0) 0 0
  else
    let '(m, e) := roundQuotient (Z.abs a) (Z.abs b) in
    Finite (xorb (a <? 0) (b <? 0)) m e.

(** The integer [n] for which [n / 10 - m * 2^e] is as close to zero as
    possible, the larger one if there are two. *)
Definition tenths (m e : Z) : Z :=
  if 0 <=? e then 10 * m * 2 ^ e
  else (20 * m + 2 ^ (- e)) / 2 ^ (1 - e).

(** [10^21 <= m * 2^e] *)
Definition atLeast1e21 (m e : Z) : bool :=
  if 0 <=? e then 10 ^ 21 <=? m * 2 ^ e else 10 ^ 21 * 2 ^ (- e) <=? m.

Fixpoint digitsOf (u : Decimal.uint) : jsstring :=
  match u with
  | Decimal.Nil => []
  | Decimal.D0 u' => 48%N :: digitsOf u'
  | Decimal.D1 u' => 49%N :: digitsOf u'
  | Decimal.D2 u' => 50%N :: digitsOf u'
  | Decimal.D3 u' => 51%N :: digitsOf u'
  | Decimal.D4 u' => 52%N :: digitsOf u'
  | Decimal.D5 u' => 53%N :: digitsOf u'
  | Decimal.D6 u' => 54%N :: digitsOf u'
  | Decimal.D7 u' => 55%N :: digitsOf u'
  | Decimal.D8 u' => 56%N :: digitsOf u'
  | Decimal.D9 u' => 57%N :: digitsOf u'
  end.

(** The decimal digits of a natural number, ["0"] for zero. *)
Definition decimal (n : Z) : jsstring := digitsOf (N.to_uint (Z.to_N n)).

(** A number of tenths written with one fraction digit. *)
Definition oneDecimal (n : Z) : jsstring :=
  decimal (n / 10) ++ lit "." ++ decimal (n mod 10).

Section Host.

(** [Number::toString], which [toFixed] falls back on from 10^21
    upwards. *)
Variable numberToString : double -> jsstring.

(** [x.toFixed(1)] *)
Definition toFixed1 (x : double) : jsstring :=
  match x with
  | NaN => lit "NaN"
  | Infinity negative =>
      if negative then lit "-Infinity" else lit "Infinity"
  | Finite negative m e =>
      let s := if negative && (0 <? m) then lit "-" else [] in
      if atLeast1e21 m e then s ++ numberToString (Finite false m e)
      else s ++ oneDecimal (tenths m e)
  end.

End Host.

(** [Math.max(...args)] on integers: -Infinity without arguments. *)
Inductive extended : Type :=
| NegInfinity
| Int (z : Z).

Definition maxOf (a : extended) (z : Z) : extended :=
  match a with
  | NegInfinity => Int z
  | Int y => Int (Z.max y z)
  end.

Definition mathMax (args : list Z) : extended :=
  foldl maxOf NegInfinity args.

End Number.

(** ** Shared data *)

(** A [File] of the file input: the code reads [name] and [size] only. *)
Record File : Type := mkFile { name : jsstring; size : Z }.

(** One element of the array the ranking service answers with. *)
Module RankedResult.
Record t : Type := mk {
  name : jsstring;
  score : Z;
  rank : option Z;
  assessment : option jsstring;
  explanation : option jsstring
}.
End RankedResult.

(** ** api.js *)

Module Api.

(** What [formData.append] collects, in call order. *)
Inductive Part : Type :=
| Field (value : jsstring)
| Blob (file : File).

Definition FormData : Type := list (jsstring * Part).

(** [response.data] of a successful POST /rank: an object with a
    [results] array, or the array itself. *)
Inductive ResponseData : Type :=
| Wrapped (results : list RankedResult.t)
| Bare (results : list RankedResult.t).

(** The error axios rejects with: [error.response?.data?.error] and
    [error.message]. *)
Record AxiosError : Type := mkAxiosError {
  response_data_error : option jsstring;
  axios_message : jsstring
}.

(** How the transport settles a request. *)
Inductive Settled : Type :=
| Fulfilled (data : ResponseData)
| Failed (e : AxiosError).

(** An [Error] object, of which the callers read [message]. *)
Record Error : Type := mkError { message : jsstring }.

(** The rejection branch of the response interceptor. *)
Definition responseRejected (e : AxiosError) : Error :=
  mkError (opt_or_else (response_data_error e)
             (or_else (axios_message e) (lit "Network error"))).

(** The form data [rankResumes] builds. *)
Definition rankFormData (jobDescription : jsstring) (files : list File)
  : FormData :=
  (lit "job_description", Field jobDescription)
    :: ((fun file => (lit "resumes", Blob file)) <$> files).

(** [response.data.results || response.data] *)
Definition resultsOrData (d : ResponseData) : list RankedResult.t :=
  match d with
  | Wrapped rs => rs
  | Bare rs => rs
  end.

(** The promise [rankResumes] returns, once settled. *)
Inductive Outcome : Type :=
| Resolved (data : list RankedResult.t)
| Rejected (err : Error).

Definition settle (s : Settled) : Outcome :=
  match s with
  | Fulfilled d => Resolved (resultsOrData d)
  | Failed e => Rejected (responseRejected e)
  end.

End Api.

(** ** UploadForm.jsx *)

Module UploadForm.

(** The five [useState] cells of the component. [files] is the
    [FileList] of the file input, or the initial empty array. *)
Record State : Type := mkState {
  jd : jsstring;
  files : list File;
  loading : bool;
  error : jsstring;
  progress : Z
}.

(** What a handler does to the world, in program order: calls of the
    state setters, of the [setResults] prop, of [console.error], and
    the POST that [rankResumes] sends. *)
Inductive Effect : Type :=
| SetJd (v : jsstring)
| SetFiles (v : list File)
| SetLoading (v : bool)
| SetError (v : jsstring)
| SetProgress (v : Z)
| SetResults (data : list RankedResult.t)
| PostRank (body : Api.FormData)
| ConsoleError (err : Api.Error).

(** A handler run: the effects it performed and its value. *)
Definition M (A : Type) : Type := list Effect * A.

#[export] Instance M_ret : MRet M := fun A a => ([], a).
#[export] Instance M_bind : MBind M := fun A B k m =>
  let '(t1, a) := m in let '(t2, b) := k a in (t1 ++ t2, b).

Definition emit (e : Effect) : M unit := ([e], tt).

Definition setJd v := emit (SetJd v).
Definition setFiles v := emit (SetFiles v).
Definition setLoading v := emit (SetLoading v).
Definition setError v := emit (SetError v).
Definition setProgress v := emit (SetProgress v).
Definition setResults v := emit (SetResults v).
Definition consoleError v := emit (ConsoleError v).

(** The effects of a run. *)
Definition trace {A} (m : M A) : list Effect := m.1.

(** React applies the queued updates: per cell the last value set wins. *)
Definition update (st : State) (e : Effect) : State :=
  match e with
  | SetJd v => mkState v (files st) (loading st) (error st) (progress st)
  | SetFiles v => mkState (jd st) v (loading st) (error st) (progress st)
  | SetLoading v => mkState (jd st) (files st) v (error st) (progress st)
  | SetError v => mkState (jd st) (files st) (loading st) v (progress st)
  | SetProgress v => mkState (jd st) (files st) (loading st) (error st) v
  | SetResults _ | PostRank _ | ConsoleError _ => st
  end.

Definition commit (st : State) (t : list Effect) : State :=
  foldl update st t.

Definition MAX_FILE_SIZE : Z := 5 * 1024 * 1024.

(** The [for (let file of files)] loop of [validateInputs], with its
    early [return false]. *)
Fixpoint checkSizes (fs : list File) : M bool :=
  match fs with
  | [] => mret true
  | file :: rest =>
      if MAX_FILE_SIZE <? size file then
        setError (lit "File " ++ name file ++ lit " exceeds 5MB limit") ;;
        mret false
      else checkSizes rest
  end.

Definition validateInputs (st : State) : M bool :=
  if negb (truthy (trim (jd st))) then
    setError (lit "Job description cannot be empty") ;; mret false
  else if (length (trim (jd st)) <? 50)%nat then
    setError (lit "Job description must be at least 50 characters") ;;
    mret false
  else if (length (files st) =? 0)%nat then
    setError (lit "Please upload at least one resume") ;; mret false
  else if (10 <? length (files st))%nat then
    setError (lit "Maximum 10 resumes allowed") ;; mret false
  else checkSizes (files st).

Section Handlers.

(** The ranking service behind POST /rank, as seen through axios. *)
Variable transport : Api.FormData -> Api.Settled.

(** [await rankResumes(jobDescription, files)] *)
Definition rankResumes (jobDescription : jsstring) (fs : list File)
  : M Api.Outcome :=
  let body := Api.rankFormData jobDescription fs in
  emit (PostRank body) ;; mret (Api.settle (transport body)).

Definition handleSubmit (st : State) : M unit :=
  setError [] ;;
  ok ← validateInputs st ;
  if negb ok then mret tt
  else
    setLoading true ;;
    setProgress 10 ;;
    (* try *)
    setProgress 30 ;;
    r ← rankResumes (jd st) (files st) ;
    match r with
    | Api.Resolved data =>
        setProgress 100 ;;
        setResults data ;;
        setJd [] ;;
        setFiles []
    | Api.Rejected err =>
        (* catch *)
        setError (or_else (Api.message err)
                    (lit "Failed to rank resumes. Please try again.")) ;;
        consoleError err
    end ;;
    (* finally *)
    setLoading false ;;
    setProgress 0.

(** The state the component renders once the handler is through. *)
Definition submit (st : State) : State :=
  commit st (trace (handleSubmit st)).

End Handlers.

Definition handleFileChange (targetFiles : list File) : M unit :=
  setFiles targetFiles ;;
  setError [].

Definition handleJdChange (st : State) (value : jsstring) : M unit :=
  setJd value ;;
  if truthy (error st) then setError [] else mret tt.

(** The state of a freshly mounted form. *)
Definition initial : State := mkState [] [] false [] 0.

End UploadForm.

(** ** Results.jsx *)

Module Results.

Import RankedResult.

(** *** Arrays

    [filter] and the spread [[...a]] build new arrays, [sort] reorders
    the array it is called on: arrays are references into a store. *)
Definition loc : Type := positive.

(** What the render pass evaluated in the way of divisions and
    [Math.max] calls, with their operands. *)
Inductive Op : Type :=
| Divide (a b : Z)
| MathMax (args : list Z).

Record Store : Type := mkStore {
  arrays : gmap loc (list RankedResult.t);
  evaluated : list Op
}.

(** A render step: it may read and extend the store; reading a
    reference that holds no array has no result. *)
Definition M (A : Type) : Type := Store -> option (A * Store).

#[export] Instance M_ret : MRet M := fun A a h => Some (a, h).
#[export] Instance M_bind : MBind M := fun A B k m h =>
  match m h with
  | Some (a, h') => k a h'
  | None => None
  end.

Definition get (l : loc) : M (list RankedResult.t) := fun h =>
  match arrays h !! l with
  | Some xs => Some (xs, h)
  | None => None
  end.

Definition new (xs : list RankedResult.t) : M loc := fun h =>
  let l := fresh (dom (arrays h)) in
  Some (l, mkStore (<[l := xs]> (arrays h)) (evaluated h)).

Definition put (l : loc) (xs : list RankedResult.t) : M unit := fun h =>
  match arrays h !! l with
  | Some _ => Some (tt, mkStore (<[l := xs]> (arrays h)) (evaluated h))
  | None => None
  end.

Definition record (o : Op) : M unit := fun h =>
  Some (tt, mkStore (arrays h) (evaluated h ++ [o])).

(** [a.length] *)
Definition len (a : loc) : M nat :=
  xs ← get a ; mret (length xs).

(** [a.filter(p)] *)
Definition arrayFilter (a : loc) (p : RankedResult.t -> bool) : M loc :=
  xs ← get a ; new (List.filter p xs).

(** [[...a]] *)
Definition spread (a : loc) : M loc :=
  xs ← get a ; new xs.

(** [Array.prototype.sort] is stable (ECMAScript 2019) and, for a
    consistent comparator, fixed by that; insertion from the right is
    such a sort. [cmp x y > 0] puts [x] after [y]. *)
Fixpoint insertSorted (cmp : RankedResult.t -> RankedResult.t -> Z)
  (x : RankedResult.t) (l : list RankedResult.t) : list RankedResult.t :=
  match l with
  | [] => [x]
  | y :: l' =>
      if 0 <? cmp x y then y :: insertSorted cmp x l' else x :: y :: l'
  end.

Definition stableSort (cmp : RankedResult.t -> RankedResult.t -> Z)
  (l : list RankedResult.t) : list RankedResult.t :=
  foldr (insertSorted cmp) [] l.

(** [a.sort(cmp)]: sorts [a] in place and returns [a]. *)
Definition arraySort (a : loc)
  (cmp : RankedResult.t -> RankedResult.t -> Z) : M loc :=
  xs ← get a ; put a (stableSort cmp xs) ;; mret a.

(** [a.reduce(f, init)] *)
Definition arrayReduce (a : loc) (f : Z -> RankedResult.t -> Z) (init : Z)
  : M Z :=
  xs ← get a ; mret (foldl f init xs).

(** [a.map(f)] for a numeric [f]; the array of numbers is spread into
    a call at once and is not kept in the store. *)
Definition arrayMap (a : loc) (f : RankedResult.t -> Z) : M (list Z) :=
  xs ← get a ; mret (f <$> xs).

Definition divide (a b : Z) : M Number.double :=
  record (Divide a b) ;; mret (Number.divide a b).

Definition mathMax (args : list Z) : M Number.extended :=
  record (MathMax args) ;; mret (Number.mathMax args).

(** *** The component *)

Record Stats : Type := mkStats {
  total : nat;
  avgScore : jsstring;
  topScore : Number.extended
}.

(** What a render pass with results shows: the [filtered] and [sorted]
    arrays, the cards in the order of [sorted], and the stats. *)
Record View : Type := mkView {
  filtered : loc;
  sorted : loc;
  cards : list RankedResult.t;
  stats : Stats
}.

Inductive Rendered : Type :=
| EmptyState
| Listing (v : View).

Definition getScoreBadge (score : Z) : jsstring :=
  if 80 <=? score then [55357; 57314]%N ++ lit " Excellent"
  else if 60 <=? score then [55357; 57313]%N ++ lit " Good"
  else if 40 <=? score then [55357; 57312]%N ++ lit " Fair"
  else [55357; 56628]%N ++ lit " Poor".

Definition getScoreColor (score : Z) : jsstring :=
  if 80 <=? score then lit "#10b981"
  else if 60 <=? score then lit "#f59e0b"
  else if 40 <=? score then lit "#f97316"
  else lit "#ef4444".

Section Host.

(** [String.prototype.localeCompare] and [Number::toString] are the
    host's. *)
Variable localeCompare : jsstring -> jsstring -> Z.
Variable numberToString : Number.double -> jsstring.

(** The comparator handed to [sort]. *)
Definition compareBy (sortBy : jsstring) (a b : RankedResult.t) : Z :=
  if decide (sortBy = lit "score") then score b - score a
  else if decide (sortBy = lit "name") then localeCompare (name a) (name b)
  else 0.

(** The render function for the props [results] ([None] when it is
    [null] or [undefined]) and the state [sortBy], [filterThreshold]. *)
Definition Results (results : option loc) (sortBy : jsstring)
  (filterThreshold : Z) : M Rendered :=
  match results with
  | None => mret EmptyState
  | Some results =>
      n ← len results ;
      if (n =? 0)%nat then mret EmptyState
      else
        filtered ← arrayFilter results
                     (fun r => filterThreshold <=? score r) ;
        copy ← spread filtered ;
        sorted ← arraySort copy (compareBy sortBy) ;
        total ← len results ;
        sum ← arrayReduce results (fun sum r => sum + score r) 0 ;
        count ← len results ;
        avg ← divide sum (Z.of_nat count) ;
        scores ← arrayMap results score ;
        top ← mathMax scores ;
        cards ← get sorted ;
        mret (Listing (mkView filtered sorted cards
                         (mkStats total
                            (Number.toFixed1 numberToString avg) top)))
  end.

End Host.

End Results.

(** ** Binary64 division, as the standard library specifies it *)

Module NumberSpec.

(** [p / q] on the doubles that hold the integers [p] and [q]. *)
Definition binary64Quotient (p q : Z) : spec_float :=
  SFdiv 53 1024 (S754_finite false (Z.to_pos p) 0)
    (S754_finite false (Z.to_pos q) 0).

Definition sameDouble (x : spec_float) (me : Z * Z) : bool :=
  match x with
  | S754_finite false m e => (Z.pos m =? me.1) && (e =? me.2)
  | _ => false
  end.

Definition fromTo (a b : Z) : list Z :=
  (fun n => a + Z.of_nat n) <$> seq 0 (Z.to_nat (b - a + 1)).

(** [Number.roundQuotient] gives the double of [SFdiv] for all
    numerators in [ps] and denominators in [qs]. *)
Definition agreeOn (ps qs : list Z) : bool :=
  forallb (fun p =>
    forallb (fun q =>
      sameDouble (binary64Quotient p q) (Number.roundQuotient p q)) qs) ps.

End NumberSpec.

(** ** The submission contract, in the specification's terms *)

Module SubmissionSpec.

Import UploadForm.

(** The locally detected errors. *)
Inductive SubmissionError : Type :=
| EmptyJobDescription
| JobDescriptionTooShort
| NoFilesProvided
| TooManyFiles
| FileTooLarge (fileName : jsstring).

(** The text the form shows for each of them. *)
Definition errorMessage (e : SubmissionError) : jsstring :=
  match e with
  | EmptyJobDescription => lit "Job description cannot be empty"
  | JobDescriptionTooShort =>
      lit "Job description must be at least 50 characters"
  | NoFilesProvided => lit "Please upload at least one resume"
  | TooManyFiles => lit "Maximum 10 resumes allowed"
  | FileTooLarge fileName =>
      lit "File " ++ fileName ++ lit " exceeds 5MB limit"
  end.

Definition withinLimit (f : File) : Prop := size f <= 5 * 1024 * 1024.

(** The five checks in their order: [FirstFailure jd fs r] holds when
    [r] is the first check that [jd] and [fs] fail, [None] when they
    pass all five. *)
Inductive FirstFailure (jobDescription : jsstring) (fs : list File)
  : option SubmissionError -> Prop :=
| FirstEmpty :
    trim jobDescription = [] ->
    FirstFailure jobDescription fs (Some EmptyJobDescription)
| FirstTooShort :
    trim jobDescription <> [] ->
    (length (trim jobDescription) < 50)%nat ->
    FirstFailure jobDescription fs (Some JobDescriptionTooShort)
| FirstNoFiles :
    (50 <= length (trim jobDescription))%nat ->
    fs = [] ->
    FirstFailure jobDescription fs (Some NoFilesProvided)
| FirstTooMany :
    (50 <= length (trim jobDescription))%nat ->
    (10 < length fs)%nat ->
    FirstFailure jobDescription fs (Some TooManyFiles)
| FirstTooLarge pre f post :
    (50 <= length (trim jobDescription))%nat ->
    (length fs <= 10)%nat ->
    fs = pre ++ f :: post ->
    Forall withinLimit pre ->
    ~ withinLimit f ->
    FirstFailure jobDescription fs (Some (FileTooLarge (name f)))
| AllPass :
    (50 <= length (trim jobDescription))%nat ->
    fs <> [] ->
    (length fs <= 10)%nat ->
    Forall withinLimit fs ->
    FirstFailure jobDescription fs None.

(** The states the form is in between two handler runs. *)
Inductive Reachable : State -> Prop :=
| ReachInitial : Reachable initial
| ReachSubmit transport st :
    Reachable st -> Reachable (submit transport st)
| ReachFileChange targetFiles st :
    Reachable st ->
    Reachable (commit st (trace (handleFileChange targetFiles)))
| ReachJdChange value st :
    Reachable st ->
    Reachable (commit st (trace (handleJdChange st value))).

(** Observations on the effects of a run. *)
Definition networkCalls (t : list Effect) : list Api.FormData :=
  omap (fun e => match e with PostRank b => Some b | _ => None end) t.

Definition published (t : list Effect) : list (list RankedResult.t) :=
  omap (fun e => match e with SetResults d => Some d | _ => None end) t.

Definition progressTrace (t : list Effect) : list Z :=
  omap (fun e => match e with SetProgress v => Some v | _ => None end) t.

(** The progress values of a run together with the request it sends
    and the result set it publishes, in the order in which they occur. *)
Inductive Milestone : Type :=
| AtProgress (v : Z)
| AtRequest (body : Api.FormData)
| AtResults (data : list RankedResult.t).

Definition milestones (t : list Effect) : list Milestone :=
  omap (fun e => match e with
                 | SetProgress v => Some (AtProgress v)
                 | PostRank b => Some (AtRequest b)
                 | SetResults d => Some (AtResults d)
                 | _ => None
                 end) t.

(** Sample inputs. *)
Definition sampleDescription : jsstring := replicate 60 97%N.

Definition pdf (n : string) (bytes : Z) : File := mkFile (lit n) bytes.

Definition MiB : Z := 1024 * 1024.

Definition sampleBatch : list File :=
  [pdf "a.pdf" (1 * MiB); pdf "b.pdf" (6 * MiB); pdf "c.pdf" (1 * MiB);
   pdf "d.pdf" (7 * MiB)].

Definition sampleResults : list RankedResult.t :=
  [RankedResult.mk (lit "a.pdf") 72 (Some 1) None None].

Definition answering : Api.FormData -> Api.Settled :=
  fun _ => Api.Fulfilled (Api.Wrapped sampleResults).

Definition timingOut : Api.FormData -> Api.Settled :=
  fun _ => Api.Failed
             (Api.mkAxiosError None (lit "timeout of 120000ms exceeded")).

Definition formWith (d : jsstring) (fs : list File) : State :=
  mkState d fs false [] 0.

End SubmissionSpec.

(** ** The results view, in the specification's terms *)

Module ResultsSpec.

Import RankedResult Results.

(** The sum of a list of integers. *)
Definition sumZ (l : list Z) : Z := foldr Z.add 0 l.

(** Every running total of the scores is small enough for double
    arithmetic to be exact on it, and for the rounding of the quotient
    to stay below what one fraction digit tells apart. *)
Definition ExactRange (rs : list RankedResult.t) : Prop :=
  forall k : nat, 20 * Z.abs (sumZ (score <$> take k rs)) < 2 ^ 53.

(** [mx] is the maximum of the scores of [rs]. *)
Definition IsTopScore (rs : list RankedResult.t) (mx : Z) : Prop :=
  (exists r, r ∈ rs /\ score r = mx) /\ forall r, r ∈ rs -> score r <= mx.

(** Descending by score. *)
Definition byScoreDesc (a b : RankedResult.t) : Prop := score b <= score a.

(** The results with score [s], in their order. *)
Definition withScore (s : Z) (rs : list RankedResult.t)
  : list RankedResult.t :=
  List.filter (fun r => score r =? s) rs.

(** The results a threshold keeps. *)
Definition atLeast (threshold : Z) (rs : list RankedResult.t)
  : list RankedResult.t :=
  List.filter (fun r => threshold <=? score r) rs.

(** The results a render pass shows, in order: none for the
    placeholder. *)
Definition visible (out : Rendered) : list RankedResult.t :=
  match out with
  | EmptyState => []
  | Listing v => cards v
  end.

(** An operation on operands for which it has a proper value: a
    division by a non-zero count, a maximum over at least one number. *)
Definition wellDefined (o : Op) : Prop :=
  match o with
  | Divide _ b => b <> 0
  | MathMax args => args <> []
  end.

(** The four categories. *)
Inductive Category : Type := Excellent | Good | Fair | Poor.

Definition label (c : Category) : jsstring :=
  match c with
  | Excellent => lit "Excellent"
  | Good => lit "Good"
  | Fair => lit "Fair"
  | Poor => lit "Poor"
  end.

(** The coloured circle in front of the label: U+1F7E2, U+1F7E1,
    U+1F7E0 and U+1F534 as surrogate pairs. *)
Definition icon (c : Category) : jsstring :=
  match c with
  | Excellent => [55357; 57314]%N
  | Good => [55357; 57313]%N
  | Fair => [55357; 57312]%N
  | Poor => [55357; 56628]%N
  end.

(** The badge text of a category. *)
Definition badge (c : Category) : jsstring := icon c ++ lit " " ++ label c.

(** Sample inputs. *)
Definition candidate (n : string) (s : Z) : RankedResult.t :=
  RankedResult.mk (lit n) s None None None.

Definition storeWith (rs : list RankedResult.t) : Store :=
  mkStore {[ 1%positive := rs ]} [].

Definition noLocale : jsstring -> jsstring -> Z := fun _ _ => 0.

Definition noToString : Number.double -> jsstring := fun _ => [].

End ResultsSpec.

(** ** UploadForm.jsx: the two halves of a submission, and what the form
    shows *)

Module SubmitPhases.

Import UploadForm.

(** [handleSubmit] up to its [await]: the part that runs inside the
    click event. It yields the request it sent, if it sent one. *)
Definition handleSubmitStart (st : State) : M (option Api.FormData) :=
  setError [] ;;
  ok ← validateInputs st ;
  if negb ok then mret None
  else
    setLoading true ;;
    setProgress 10 ;;
    setProgress 30 ;;
    let body := Api.rankFormData (jd st) (files st) in
    emit (PostRank body) ;;
    mret (Some body).

(** [handleSubmit] from its [await] on, once the promise has settled. *)
Definition handleSubmitResume (r : Api.Outcome) : M unit :=
  match r with
  | Api.Resolved data =>
      setProgress 100 ;;
      setResults data ;;
      setJd [] ;;
      setFiles []
  | Api.Rejected err =>
      setError (or_else (Api.message err)
                  (lit "Failed to rank resumes. Please try again.")) ;;
      consoleError err
  end ;;
  setLoading false ;;
  setProgress 0.

(** The state the form renders while the request is in flight. *)
Definition inFlight (st : State) : State :=
  commit st (trace (handleSubmitStart st)).

(** [disabled={loading}] on the textarea, the file input and the button. *)
Definition controlsDisabled (st : State) : bool := loading st.

(** The progress bar: [{loading && ...}] with [{progress}%]. *)
Definition progressShown (st : State) : option Z :=
  if loading st then Some (progress st) else None.

(** The error banner: [{error && ...}]. *)
Definition errorShown (st : State) : option jsstring :=
  if truthy (error st) then Some (error st) else None.

(** [{jd.length} characters] *)
Definition charCount (st : State) : nat := length (jd st).

(** A click on the button: a disabled button dispatches no click. *)
Definition clickSubmit (transport : Api.FormData -> Api.Settled)
  (st : State) : M unit :=
  if controlsDisabled st then mret tt else handleSubmit transport st.

(** The files among the parts of a request body, in order. *)
Definition resumesOf (body : Api.FormData) : list File :=
  omap (fun p => match p.2 with Api.Blob f => Some f | Api.Field _ => None end)
    body.

(** The text fields among the parts of a request body, in order. *)
Definition fieldsOf (body : Api.FormData) : list (jsstring * jsstring) :=
  omap (fun p => match p.2 with
                 | Api.Field v => Some (p.1, v)
                 | Api.Blob _ => None
                 end) body.

End SubmitPhases.

(** ** Results.jsx: the cards *)

Module ResultsCards.

Import RankedResult Results.

(** [res.rank || index + 1] *)
Definition rankLabel (res : RankedResult.t) (index : nat) : Z :=
  match rank res with
  | Some z => if z =? 0 then Z.of_nat index + 1 else z
  | None => Z.of_nat index + 1
  end.

(** [expandedId === index ? null : index], the new [expandedId] after a
    click on the header of card [index]. *)
Definition toggleExpanded (expandedId : option nat) (index : nat)
  : option nat :=
  if decide (expandedId = Some index) then None else Some index.

(** The [background] of the score circle. *)
Definition scoreCircleBackground (score : Z) : jsstring :=
  lit "linear-gradient(135deg, " ++ getScoreColor score ++ lit " 0%, "
    ++ getScoreColor (score - 10) ++ lit " 100%)".

(** [x && ...] on an optional string: shown when present and not empty. *)
Definition shownText (x : option jsstring) : option jsstring :=
  match x with
  | Some s => if truthy s then Some s else None
  | None => None
  end.

(** The body of an expanded card: the assessment and the explanation
    sections it shows. *)
Record CardBody : Type := mkCardBody {
  assessmentShown : option jsstring;
  explanationShown : option jsstring
}.

Record Card : Type := mkCard {
  isExpanded : bool;
  rankShown : Z;
  nameShown : jsstring;
  badgeShown : jsstring;
  background : jsstring;
  scoreShown : Z;
  bodyShown : option CardBody
}.

(** One element of [sorted.map((res, index) => ...)]. *)
Definition renderCard (expandedId : option nat) (index : nat)
  (res : RankedResult.t) : Card :=
  let open := bool_decide (expandedId = Some index) in
  mkCard open (rankLabel res index) (name res) (getScoreBadge (score res))
    (scoreCircleBackground (score res)) (score res)
    (if open
     then Some (mkCardBody (shownText (assessment res))
                  (shownText (explanation res)))
     else None).

(** The results list: the "No results match your filter" line, or the
    cards. *)
Inductive ResultsList : Type :=
| NoResultsMatch
| Cards (cs : list Card).

Definition resultsList (expandedId : option nat)
  (sorted : list RankedResult.t) : ResultsList :=
  if (length sorted =? 0)%nat then NoResultsMatch
  else Cards (imap (renderCard expandedId) sorted).

(** What the component shows: the placeholder, or the header
    "Results (shown of all)", the stats and the list. *)
Inductive Page : Type :=
| Placeholder
| Listed (shown all : nat) (s : Stats) (list : ResultsList).

Definition page (expandedId : option nat) (out : Rendered) : Page :=
  match out with
  | EmptyState => Placeholder
  | Listing v =>
      Listed (length (cards v)) (total (stats v)) (stats v)
        (resultsList expandedId (cards v))
  end.

(** The cards of a page. *)
Definition cardsOf (p : Page) : list Card :=
  match p with
  | Listed _ _ _ (Cards cs) => cs
  | _ => []
  end.

End ResultsCards.

(** ** App.jsx *)

Module App.

Record State : Type := mkState {
  results : list RankedResult.t;
  submissionCount : Z
}.

Definition initial : State := mkState [] 0.

Definition handleResultsUpdate (st : State)
  (newResults : list RankedResult.t) : State :=
  mkState newResults (submissionCount st + 1).

(** [{submissionCount > 0 && <Results results={results} />}]: the
    result set handed to [Results], if the section is rendered. *)
Definition resultsSection (st : State) : option (list RankedResult.t) :=
  if 0 <? submissionCount st then Some (results st) else None.

(** The [setResults] prop of the form is [handleResultsUpdate]: what a
    handler run of the form does to the state of [App]. *)
Definition apply (st : State) (t : list UploadForm.Effect) : State :=
  foldl (fun a e =>
           match e with
           | UploadForm.SetResults d => handleResultsUpdate a d
           | _ => a
           end) st t.

(** One click on "Rank Candidates": the states of [App] and of the form
    afterwards. *)
Definition submit (transport : Api.FormData -> Api.Settled)
  (st : State * UploadForm.State) : State * UploadForm.State :=
  let t := UploadForm.trace (UploadForm.handleSubmit transport st.2) in
  (apply st.1 t, UploadForm.commit st.2 t).

End App.

(** ** The added properties, in the terms of their statements *)

Module ViewSpec.

Import RankedResult Results ResultsSpec.

(** A code unit that [trim] strips. *)
Definition isSpace (c : N) : Prop := isWhiteSpace c = true.

Definition color (c : Category) : jsstring :=
  match c with
  | Excellent => lit "#10b981"
  | Good => lit "#f59e0b"
  | Fair => lit "#f97316"
  | Poor => lit "#ef4444"
  end.

(** The categories in order, [Poor] lowest. *)
Definition level (c : Category) : Z :=
  match c with
  | Excellent => 3
  | Good => 2
  | Fair => 1
  | Poor => 0
  end.

(** A comparator that orders: of two elements one is not after the
    other, and "not after" is transitive. *)
Definition Consistent (cmp : RankedResult.t -> RankedResult.t -> Z) : Prop :=
  (forall x y, 0 < cmp x y -> cmp y x <= 0)
  /\ (forall x y z, cmp x y <= 0 -> cmp y z <= 0 -> cmp x z <= 0).

(** Names compared by their length: a stand-in for [localeCompare]. *)
Definition byLength (a b : jsstring) : Z :=
  Z.of_nat (length a) - Z.of_nat (length b).

(** A filled-in form with one file of 1 MiB. *)
Definition oneFile : UploadForm.State :=
  SubmissionSpec.formWith SubmissionSpec.sampleDescription
    [SubmissionSpec.pdf "a.pdf" (1 * SubmissionSpec.MiB)].

(** A service that refuses the request with an error of its own. *)
Definition refusing : Api.FormData -> Api.Settled :=
  fun _ => Api.Failed
             (Api.mkAxiosError (Some (lit "Invalid PDF"))
                (lit "Request failed with status code 400")).

End ViewSpec.

(* ================================================================= *)

(** * Proofs: the upload form *)

Section UploadFormFacts.

Import UploadForm SubmissionSpec.

#[local] Arguments lit : simpl never.

Lemma truthy_false (s : jsstring) : truthy s = false <-> s = [].
Proof. destruct s; simpl; split; congruence. Qed.

Lemma truthy_true (s : jsstring) : s <> [] -> truthy s = true.
Proof. destruct s; simpl; congruence. Qed.

Lemma long_not_empty (s : jsstring) : (50 <= length s)%nat -> s <> [].
Proof. intros H ->. simpl in H. lia. Qed.

(** The loop stops at the first file over the limit. *)
Lemma checkSizes_stops pre f post :
  Forall withinLimit pre -> ~ withinLimit f ->
  checkSizes (pre ++ f :: post)
  = ([SetError (errorMessage (FileTooLarge (name f)))], false).
Proof.
  unfold withinLimit. intros Hpre Hf.
  induction Hpre as [|g pre Hg _ IH]; simpl.
  - unfold MAX_FILE_SIZE.
    destruct (Z.ltb_spec (5 * 1024 * 1024) (size f)); [reflexivity | lia].
  - unfold MAX_FILE_SIZE in *.
    destruct (Z.ltb_spec (5 * 1024 * 1024) (size g)); [lia | exact IH].
Qed.

Lemma checkSizes_passes fs :
  Forall withinLimit fs -> checkSizes fs = ([], true).
Proof.
  unfold withinLimit. induction 1 as [|g fs Hg _ IH]; simpl; [reflexivity|].
  unfold MAX_FILE_SIZE in *.
  destruct (Z.ltb_spec (5 * 1024 * 1024) (size g)); [lia | exact IH].
Qed.

(** [validateInputs] reports the first failing check, and that one only. *)
Lemma validateInputs_first_failure st r :
  FirstFailure (jd st) (files st) r ->
  validateInputs st
  = match r with
    | Some e => ([SetError (errorMessage e)], false)
    | None => ([], true)
    end.
Proof.
  intros H. unfold validateInputs.
  destruct H as [He | Hne Hs | Hl Hf | Hl Hm | pre f post Hl Hn Hf Hpre Hbig
                | Hl Hne Hn Hall].
  - rewrite He. reflexivity.
  - rewrite (truthy_true _ Hne). simpl.
    destruct (Nat.ltb_spec (length (trim (jd st))) 50); [reflexivity | lia].
  - rewrite (truthy_true _ (long_not_empty _ Hl)). simpl.
    destruct (Nat.ltb_spec (length (trim (jd st))) 50); [lia |].
    rewrite Hf. reflexivity.
  - rewrite (truthy_true _ (long_not_empty _ Hl)). simpl.
    destruct (Nat.ltb_spec (length (trim (jd st))) 50); [lia |].
    destruct (Nat.eqb_spec (length (files st)) 0); [lia |].
    destruct (Nat.ltb_spec 10 (length (files st))); [reflexivity | lia].
  - rewrite (truthy_true _ (long_not_empty _ Hl)). simpl.
    destruct (Nat.ltb_spec (length (trim (jd st))) 50); [lia |].
    destruct (Nat.eqb_spec (length (files st)) 0) as [E|_].
    { rewrite Hf, length_app in E. simpl in E. lia. }
    destruct (Nat.ltb_spec 10 (length (files st))); [lia |].
    rewrite Hf. apply checkSizes_stops; assumption.
  - rewrite (truthy_true _ (long_not_empty _ Hl)). simpl.
    destruct (Nat.ltb_spec (length (trim (jd st))) 50); [lia |].
    destruct (Nat.eqb_spec (length (files st)) 0) as [E|_].
    { destruct (files st); [congruence | simpl in E; lia]. }
    destruct (Nat.ltb_spec 10 (length (files st))); [lia |].
    apply checkSizes_passes; assumption.
Qed.

(** Every input meets exactly one row of [FirstFailure]. *)
Lemma FirstFailure_total jobDescription fs :
  exists r, FirstFailure jobDescription fs r.
Proof.
  destruct (decide (trim jobDescription = [])) as [He|Hne].
  { eexists. apply FirstEmpty. exact He. }
  destruct (Nat.lt_ge_cases (length (trim jobDescription)) 50) as [Hs|Hl].
  { eexists. apply FirstTooShort; assumption. }
  destruct (decide (fs = [])) as [Hf|Hf].
  { eexists. apply FirstNoFiles; assumption. }
  destruct (Nat.lt_ge_cases 10 (length fs)) as [Hm|Hn].
  { eexists. apply FirstTooMany; assumption. }
  assert (Hsplit : Forall withinLimit fs \/
            exists pre f post, fs = pre ++ f :: post /\
              Forall withinLimit pre /\ ~ withinLimit f).
  { clear. induction fs as [|g fs IH]; [left; constructor|].
    destruct (decide (size g <= 5 * 1024 * 1024)) as [Hg|Hg].
    - destruct IH as [IH|(pre & f & post & -> & Hpre & Hbig)].
      + left. constructor; assumption.
      + right. exists (g :: pre), f, post. repeat split; try assumption.
        constructor; assumption.
    - right. exists [], g, fs. repeat split; [constructor | exact Hg]. }
  destruct Hsplit as [Hall|(pre & f & post & E & Hpre & Hbig)].
  - eexists. apply AllPass; assumption.
  - eexists. eapply FirstTooLarge; eassumption.
Qed.

Lemma FirstFailure_deterministic st r1 r2 :
  FirstFailure (jd st) (files st) r1 ->
  FirstFailure (jd st) (files st) r2 -> r1 = r2.
Proof.
  intros H1 H2.
  apply validateInputs_first_failure in H1, H2.
  rewrite H1 in H2. clear H1.
  destruct r1 as [e1|], r2 as [e2|]; try discriminate; [|reflexivity].
  injection H2 as H2. f_equal.
  destruct e1, e2; try reflexivity; try discriminate.
  unfold errorMessage in H2. apply app_inv_head in H2.
  apply app_inv_tail in H2. congruence.
Qed.

Variable transport : Api.FormData -> Api.Settled.

(** The effects of a run, by the first failing check and by how the
    request settles. *)
Lemma handleSubmit_trace st r :
  FirstFailure (jd st) (files st) r ->
  trace (handleSubmit transport st)
  = match r with
    | Some e => [SetError []; SetError (errorMessage e)]
    | None =>
        let body := Api.rankFormData (jd st) (files st) in
        [SetError []; SetLoading true; SetProgress 10; SetProgress 30;
         PostRank body]
        ++ match Api.settle (transport body) with
           | Api.Resolved data =>
               [SetProgress 100; SetResults data; SetJd []; SetFiles []]
           | Api.Rejected err =>
               [SetError (or_else (Api.message err)
                  (lit "Failed to rank resumes. Please try again."));
                ConsoleError err]
           end
        ++ [SetLoading false; SetProgress 0]
    end.
Proof.
  intros H. unfold handleSubmit, trace.
  unfold mbind, M_bind.
  rewrite (validateInputs_first_failure st r H).
  destruct r as [e|]; [reflexivity|]. simpl.
  destruct (Api.settle _); reflexivity.
Qed.

End UploadFormFacts.

Section FormStates.

Import UploadForm SubmissionSpec.

(** Between runs the form is idle: not loading, the indicator at 0. *)
Lemma reachable_idle st :
  Reachable st -> loading st = false /\ progress st = 0.
Proof.
  induction 1 as [|tr st _ [IHl IHp]|fs st _ IH|v st _ IH].
  - split; reflexivity.
  - destruct (FirstFailure_total (jd st) (files st)) as [r Hr].
    unfold submit.
    rewrite (handleSubmit_trace tr st r Hr).
    destruct r as [e|]; [split; assumption|].
    simpl. destruct (Api.settle _); split; reflexivity.
  - exact IH.
  - unfold handleJdChange. destruct (truthy (error st)); exact IH.
Qed.

End FormStates.

Section UploadFormClaims.

Import UploadForm SubmissionSpec.

#[local] Arguments lit : simpl never.

Variable transport : Api.FormData -> Api.Settled.

(** C1. [submit] applies the five checks in their order (description
    non-empty after trimming, trimmed length at least 50, some file, at
    most ten files, every file within 5 MiB in submission order) and
    reports the first one that fails, and only that one: the run sets
    that single error (for a file over the limit, the one naming the
    first such file) and sends nothing. The request is sent exactly
    when all five checks pass. *)
Theorem submit_reports_first_failing_check st r :
  FirstFailure (jd st) (files st) r ->
  let t := trace (handleSubmit transport st) in
  match r with
  | Some e =>
      t = [SetError []; SetError (errorMessage e)]
      /\ error (submit transport st) = errorMessage e
      /\ networkCalls t = []
  | None =>
      networkCalls t = [Api.rankFormData (jd st) (files st)]
  end.
Proof.
  intros H t. subst t. unfold submit.
  rewrite (handleSubmit_trace transport st r H).
  destruct r as [e|].
  - repeat split; reflexivity.
  - simpl. destruct (Api.settle _); reflexivity.
Qed.

(** C6. A submission that succeeds clears the job description and the
    file selection and hands the result set to [setResults]; one that
    fails, in validation or in the request, leaves both inputs as they
    were and publishes nothing. *)
Theorem submit_clears_inputs_on_success_only st r :
  FirstFailure (jd st) (files st) r ->
  let t := trace (handleSubmit transport st) in
  let st' := submit transport st in
  match r, Api.settle (transport (Api.rankFormData (jd st) (files st))) with
  | None, Api.Resolved data =>
      jd st' = [] /\ files st' = [] /\ published t = [data]
  | _, _ =>
      jd st' = jd st /\ files st' = files st /\ published t = []
  end.
Proof.
  intros H t st'. subst t st'. unfold submit.
  rewrite (handleSubmit_trace transport st r H).
  destruct r as [e|].
  - repeat split; reflexivity.
  - simpl. destruct (Api.settle _); repeat split; reflexivity.
Qed.

(** C7, as amended. A job description whose trimmed length is between
    1 and 49 makes [submit] fail with [JobDescriptionTooShort], and no
    request is sent. *)
Theorem short_description_rejected st :
  trim (jd st) <> [] ->
  (length (trim (jd st)) < 50)%nat ->
  let t := trace (handleSubmit transport st) in
  t = [SetError []; SetError (errorMessage JobDescriptionTooShort)]
  /\ error (submit transport st) = errorMessage JobDescriptionTooShort
  /\ networkCalls t = [].
Proof.
  intros Hne Hs t. subst t. unfold submit.
  rewrite (handleSubmit_trace transport st _ (FirstTooShort _ _ Hne Hs)).
  repeat split; reflexivity.
Qed.

(** C9, as amended. The progress values a run publishes are integers
    in [0,100]. A run that fails validation publishes none, sends
    nothing and leaves the indicator as it was. A run that passes
    validation publishes 10, then 30, then sends the request; if the
    response arrives it publishes 100 and then the result set; and at
    its end, after a success as well as after a failure, it resets the
    indicator to 0. Before that reset the values do not decrease. From
    every state the form reaches between runs, the indicator is 0 after
    the run. *)
Theorem progress_checkpoints_then_reset st r :
  FirstFailure (jd st) (files st) r ->
  let t := trace (handleSubmit transport st) in
  let p := progressTrace t in
  let body := Api.rankFormData (jd st) (files st) in
  Forall (fun v => 0 <= v <= 100) p
  /\ match r with
     | Some _ =>
         p = [] /\ milestones t = []
         /\ progress (submit transport st) = progress st
     | None =>
         match Api.settle (transport body) with
         | Api.Resolved data =>
             p = [10; 30; 100] ++ [0]
             /\ milestones t
                = [AtProgress 10; AtProgress 30; AtRequest body;
                   AtProgress 100; AtResults data; AtProgress 0]
         | Api.Rejected _ =>
             p = [10; 30] ++ [0]
             /\ milestones t
                = [AtProgress 10; AtProgress 30; AtRequest body;
                   AtProgress 0]
         end
         /\ Sorted Z.le (removelast p)
         /\ progress (submit transport st) = 0
     end
  /\ (Reachable st -> progress (submit transport st) = 0).
Proof.
  intros H t p body. subst t p body.
  split; [|split];
    [| | intros HR; apply (reachable_idle _ (ReachSubmit transport st HR))].
  all: unfold submit; rewrite (handleSubmit_trace transport st r H).
  all: destruct r as [e|]; simpl.
  - constructor.
  - destruct (Api.settle _); simpl; repeat constructor; lia.
  - repeat split; reflexivity.
  - destruct (Api.settle _); simpl.
    + split; [split; reflexivity|]. split; [|reflexivity].
      repeat constructor; lia.
    + split; [split; reflexivity|]. split; [|reflexivity].
      repeat constructor; lia.
Qed.

End UploadFormClaims.

Section UploadFormInstances.

Import UploadForm SubmissionSpec.

Lemma sampleDescription_long : (50 <= length (trim sampleDescription))%nat.
Proof. vm_compute. lia. Defined.

Lemma sampleBatch_first_failure :
  FirstFailure sampleDescription sampleBatch
    (Some (FileTooLarge (lit "b.pdf"))).
Proof.
  apply (FirstTooLarge sampleDescription sampleBatch
           [pdf "a.pdf" (1 * MiB)] (pdf "b.pdf" (6 * MiB))
           [pdf "c.pdf" (1 * MiB); pdf "d.pdf" (7 * MiB)]).
  - exact sampleDescription_long.
  - simpl. lia.
  - reflexivity.
  - repeat constructor. vm_compute. discriminate.
  - vm_compute. intros H. apply H. reflexivity.
Defined.

(** Of two files over the limit, the earlier one is named; nothing is
    sent. *)
Lemma submit_reports_first_failing_check_witness :
  FirstFailure sampleDescription sampleBatch
    (Some (FileTooLarge (lit "b.pdf")))
  /\ error (submit answering (formWith sampleDescription sampleBatch))
     = lit "File b.pdf exceeds 5MB limit"
  /\ networkCalls
       (trace (handleSubmit answering
                 (formWith sampleDescription sampleBatch))) = [].
Proof.
  split; [exact sampleBatch_first_failure|].
  pose proof (submit_reports_first_failing_check answering
                (formWith sampleDescription sampleBatch) _
                sampleBatch_first_failure) as H.
  simpl in H. destruct H as (_ & He & Hn). split; assumption.
Defined.

Lemma oneFile_passes :
  FirstFailure sampleDescription [pdf "a.pdf" (1 * MiB)] None.
Proof.
  apply AllPass.
  - exact sampleDescription_long.
  - discriminate.
  - simpl. lia.
  - repeat constructor. vm_compute. discriminate.
Defined.

(** A valid description with one 1 MiB file: cleared on success. *)
Lemma submit_clears_inputs_on_success_only_witness :
  let st := formWith sampleDescription [pdf "a.pdf" (1 * MiB)] in
  FirstFailure (jd st) (files st) None
  /\ jd (submit answering st) = []
  /\ files (submit answering st) = []
  /\ published (trace (handleSubmit answering st)) = [sampleResults].
Proof.
  split; [exact oneFile_passes|].
  exact (submit_clears_inputs_on_success_only answering
           (formWith sampleDescription [pdf "a.pdf" (1 * MiB)]) None
           oneFile_passes).
Defined.

(** C7 fails for a description that is blank: its trimmed length, 0,
    is below 50, and the error is the one for an empty description. *)
Lemma blank_description_reported_empty :
  let st := formWith (lit "   ") sampleBatch in
  (length (trim (jd st)) < 50)%nat
  /\ error (submit answering st) = errorMessage EmptyJobDescription
  /\ error (submit answering st) <> errorMessage JobDescriptionTooShort.
Proof.
  split; [vm_compute; lia|]. split; [reflexivity|].
  vm_compute. discriminate.
Qed.

Lemma short_description_rejected_witness :
  let st := formWith (lit "  Senior Rocq engineer  ") sampleBatch in
  trim (jd st) <> []
  /\ (length (trim (jd st)) < 50)%nat
  /\ error (submit answering st) = errorMessage JobDescriptionTooShort
  /\ networkCalls (trace (handleSubmit answering st)) = [].
Proof.
  assert (Hne : trim (lit "  Senior Rocq engineer  ") <> [])
    by (vm_compute; discriminate).
  assert (Hs : (length (trim (lit "  Senior Rocq engineer  ")) < 50)%nat)
    by (vm_compute; lia).
  split; [exact Hne|]. split; [exact Hs|].
  pose proof (short_description_rejected answering
                (formWith (lit "  Senior Rocq engineer  ") sampleBatch)
                Hne Hs) as (_ & He & Hn).
  split; assumption.
Defined.

(** C9 fails on a run that succeeds: after 100 the indicator is set
    to 0, so the published values decrease within the run. *)
Lemma progress_drops_after_success :
  let st := formWith sampleDescription [pdf "a.pdf" (1 * MiB)] in
  let t := trace (handleSubmit answering st) in
  published t = [sampleResults]
  /\ progressTrace t = [10; 30; 100; 0]
  /\ ~ Sorted Z.le (progressTrace t)
  /\ progress (submit answering st) = 0.
Proof.
  split; [reflexivity|]. split; [reflexivity|]. split; [|reflexivity].
  intros H. change (Sorted Z.le [10; 30; 100; 0]) in H.
  apply Sorted_inv in H as [H _]. apply Sorted_inv in H as [H _].
  apply Sorted_inv in H as [_ H]. apply HdRel_inv in H. lia.
Qed.

Lemma progress_checkpoints_then_reset_witness :
  let st := formWith sampleDescription [pdf "a.pdf" (1 * MiB)] in
  FirstFailure (jd st) (files st) None
  /\ progressTrace (trace (handleSubmit timingOut st)) = [10; 30; 0]
  /\ milestones (trace (handleSubmit timingOut st))
     = [AtProgress 10; AtProgress 30;
        AtRequest (Api.rankFormData (jd st) (files st)); AtProgress 0]
  /\ progress (submit timingOut st) = 0.
Proof.
  split; [exact oneFile_passes|].
  pose proof (progress_checkpoints_then_reset timingOut
                (formWith sampleDescription [pdf "a.pdf" (1 * MiB)]) None
                oneFile_passes) as (_ & ((Hp & Hm) & _ & Hz) & _).
  split; [exact Hp|]. split; [exact Hm | exact Hz].
Defined.

End UploadFormInstances.


(** * Proofs: numbers *)

Section NumberFacts.

Import Number.

(** Rounding to nearest is off by at most a half. *)
Lemma roundTiesToEven_close a b :
  0 <= a -> 0 < b ->
  2 * Z.abs (roundTiesToEven a b * b - a) <= b
  /\ a / b <= roundTiesToEven a b <= a / b + 1.
Proof.
  intros Ha Hb. unfold roundTiesToEven.
  pose proof (Z.div_mod a b ltac:(lia)) as Hdm.
  pose proof (Z.mod_pos_bound a b Hb) as Hr.
  set (m := a / b) in *. set (r := a mod b) in *.
  assert (Hmb : m * b = a - r) by lia.
  assert (Hmb1 : (m + 1) * b = a - r + b) by lia.
  destruct (Z.ltb_spec (2 * r) b); [rewrite Hmb; lia|].
  destruct (Z.ltb_spec b (2 * r)); [rewrite Hmb1; lia|].
  destruct (Z.even m); [rewrite Hmb | rewrite Hmb1]; lia.
Qed.

(** The exponent puts the quotient between 2^52 and 2^53. *)
Lemma exponent_bounds p q :
  0 < p < 2 ^ 49 -> 0 < q ->
  let e := exponent p q in
  e <= -4
  /\ 2 ^ 52 * q <= p * 2 ^ (- e) < 2 ^ 53 * q.
Proof.
  intros [Hp Hp49] Hq.
  pose proof (Z.log2_spec p Hp) as [Hlp1 Hlp2].
  pose proof (Z.log2_spec q Hq) as [Hlq1 Hlq2].
  pose proof (Z.log2_nonneg p) as Hlp0.
  pose proof (Z.log2_nonneg q) as Hlq0.
  assert (Hlp : Z.log2 p < 49) by (apply Z.log2_lt_pow2; lia).
  unfold exponent.
  set (lp := Z.log2 p) in *. set (lq := Z.log2 q) in *.
  rewrite <- Z.add_1_r in Hlp2, Hlq2.
  rewrite Z.pow_add_r in Hlp2, Hlq2 by lia.
  change (2 ^ 1) with 2 in *.
  assert (HA : 0 < 2 ^ lp) by (apply Z.pow_pos_nonneg; lia).
  assert (HB : 0 < 2 ^ lq) by (apply Z.pow_pos_nonneg; lia).
  set (A := 2 ^ lp) in *. set (B := 2 ^ lq) in *.
  assert (H53 : 2 ^ 53 = 2 * 2 ^ 52) by reflexivity.
  assert (HT : 0 < 2 ^ 52) by lia.
  destruct (Z.leb_spec 0 (lp - lq)) as [Hd|Hd].
  - (* lq <= lp *)
    assert (HD : A = 2 ^ (lp - lq) * B).
    { unfold A, B. rewrite <- Z.pow_add_r by lia. f_equal. lia. }
    assert (HD0 : 0 < 2 ^ (lp - lq)) by (apply Z.pow_pos_nonneg; lia).
    set (D := 2 ^ (lp - lq)) in *.
    assert (Hup : p < 2 * D * q) by nia.
    destruct (Z.leb_spec (q * D) p) as [Ht|Ht].
    + split; [lia|].
      replace (- (lp - lq - 52)) with (52 - (lp - lq)) by lia.
      assert (HF : 2 ^ 52 = 2 ^ (52 - (lp - lq)) * D).
      { unfold D. rewrite <- Z.pow_add_r by lia. f_equal. lia. }
      assert (HF0 : 0 < 2 ^ (52 - (lp - lq)))
        by (apply Z.pow_pos_nonneg; lia).
      set (F := 2 ^ (52 - (lp - lq))) in *.
      rewrite H53, HF. split; nia.
    + split; [lia|].
      replace (- (lp - lq - 53)) with (53 - (lp - lq)) by lia.
      assert (HF : 2 * 2 ^ 52 = 2 ^ (53 - (lp - lq)) * D).
      { rewrite <- H53. unfold D. rewrite <- Z.pow_add_r by lia.
        f_equal. lia. }
      assert (HF0 : 0 < 2 ^ (53 - (lp - lq)))
        by (apply Z.pow_pos_nonneg; lia).
      set (F := 2 ^ (53 - (lp - lq))) in *.
      rewrite H53, HF.
      assert (Hlow : q * D < 2 * p) by nia.
      split; [|nia].
      assert (2 * (2 ^ 52 * q) <= 2 * (p * F)); [|lia].
      rewrite Z.mul_assoc, HF. nia.
  - (* lp < lq *)
    assert (HD : B = 2 ^ (- (lp - lq)) * A).
    { unfold A, B. rewrite <- Z.pow_add_r by lia. f_equal. lia. }
    assert (HD0 : 0 < 2 ^ (- (lp - lq))) by (apply Z.pow_pos_nonneg; lia).
    set (D := 2 ^ (- (lp - lq))) in *.
    assert (Hup : p * D < 2 * q) by nia.
    assert (Hlow : q < 2 * (p * D)) by nia.
    destruct (Z.leb_spec q (p * D)) as [Ht|Ht].
    + split; [lia|].
      replace (- (lp - lq - 52)) with (52 + - (lp - lq)) by lia.
      rewrite Z.pow_add_r by lia. fold D. rewrite H53.
      generalize dependent (2 ^ 52). intros T _ HT. split; nia.
    + split; [lia|].
      replace (- (lp - lq - 53)) with (53 + - (lp - lq)) by lia.
      rewrite Z.pow_add_r by lia. fold D. rewrite H53.
      generalize dependent (2 ^ 52). intros T _ HT. split; nia.
Qed.

(** The double nearest to [p / q]: a 53-bit significand, off from the
    quotient by at most half a unit in the last place. *)
Lemma roundQuotient_close p q :
  0 < p < 2 ^ 49 -> 0 < q ->
  exists m e,
    roundQuotient p q = (m, e)
    /\ e < 0
    /\ 2 ^ 52 <= m < 2 ^ 53
    /\ 2 * Z.abs (m * q - p * 2 ^ (- e)) <= q.
Proof.
  intros Hp Hq. unfold roundQuotient.
  destruct (exponent_bounds p q Hp Hq) as (He & Hlo & Hhi).
  set (e := exponent p q) in *.
  destruct (Z.leb_spec 0 e); [lia|].
  assert (HE : 0 < 2 ^ (- e)) by (apply Z.pow_pos_nonneg; lia).
  set (E := 2 ^ (- e)) in *.
  destruct (roundTiesToEven_close (p * E) q ltac:(nia) Hq) as (Hc & Hm1 & Hm2).
  assert (Hd1 : 2 ^ 52 <= p * E / q)
    by (apply Z.div_le_lower_bound; lia).
  assert (Hd2 : p * E / q < 2 ^ 53)
    by (apply Z.div_lt_upper_bound; lia).
  set (m := roundTiesToEven (p * E) q) in *.
  destruct (Z.eqb_spec m (2 ^ 53)) as [Hm|Hm].
  - exists (2 ^ 52), (e + 1). split; [reflexivity|].
    split; [lia|]. split; [lia|].
    assert (HE2 : E = 2 * 2 ^ (- (e + 1))).
    { unfold E. replace (- e) with (1 + - (e + 1)) by lia.
      rewrite Z.pow_add_r by lia. reflexivity. }
    rewrite Hm in Hc.
    change (2 ^ 53) with (2 * 2 ^ 52) in Hc.
    set (E' := 2 ^ (- (e + 1))) in *.
    generalize dependent (2 ^ 52). intros T. intros. subst E. lia.
  - exists m, e. split; [reflexivity|]. split; [lia|]. split; [lia|].
    exact Hc.
Qed.

(** [tenths] is the floor of [10 * m * 2^e + 1/2]. *)
Lemma tenths_floor m e :
  e < 0 -> 0 <= m ->
  let n := tenths m e in
  0 <= n
  /\ 2 * 2 ^ (- e) * n <= 20 * m + 2 ^ (- e) < 2 * 2 ^ (- e) * n + 2 * 2 ^ (- e).
Proof.
  intros He Hm. unfold tenths.
  destruct (Z.leb_spec 0 e); [lia|].
  replace (1 - e) with (1 + - e) by lia.
  rewrite Z.pow_add_r by lia. change (2 ^ 1) with 2.
  assert (HE : 0 < 2 ^ (- e)) by (apply Z.pow_pos_nonneg; lia).
  set (E := 2 ^ (- e)) in *.
  pose proof (Z.div_mod (20 * m + E) (2 * E) ltac:(lia)) as Hdm.
  pose proof (Z.mod_pos_bound (20 * m + E) (2 * E) ltac:(lia)) as Hr.
  assert (0 <= (20 * m + E) / (2 * E)) by (apply Z.div_pos; lia).
  lia.
Qed.

(** A quotient of integers in the exact range is shown as one of the
    numerals with one fraction digit that are nearest to it. *)
Lemma tenths_of_quotient p q m e :
  0 < q ->
  20 * p < 2 ^ 53 ->
  e < 0 ->
  2 ^ 52 <= m ->
  2 * Z.abs (m * q - p * 2 ^ (- e)) <= q ->
  2 * Z.abs (q * tenths m e - 10 * p) <= q.
Proof.
  intros Hq Hp He Hm Hc.
  destruct (tenths_floor m e He ltac:(lia)) as (Hn & Hf1 & Hf2).
  set (n := tenths m e) in *.
  assert (HE : 0 < 2 ^ (- e)) by (apply Z.pow_pos_nonneg; lia).
  set (E := 2 ^ (- e)) in *.
  assert (Hc1 : 2 * (m * q) <= 2 * (p * E) + q) by lia.
  assert (Hc2 : 2 * (p * E) <= 2 * (m * q) + q) by lia.
  assert (Hbig : 2 ^ 53 * q <= 2 * (p * E) + q).
  { change (2 ^ 53) with (2 * 2 ^ 52). nia. }
  destruct (Z.le_gt_cases (2 * Z.abs (q * n - 10 * p)) q) as [|Hgt];
    [assumption|exfalso].
  destruct (Z.le_gt_cases (10 * p) (q * n)) as [Hs|Hs].
  - (* the numeral is too large *)
    assert (HX : 1 <= 2 * (q * n) - 20 * p - q) by lia.
    assert (HEX : E * (2 * (q * n) - 20 * p - q) <= 10 * q) by nia.
    assert (HE10 : E <= 10 * q) by nia.
    assert (2 * (p * E) <= 2 * p * (10 * q)) by nia.
    assert (2 ^ 53 * q <= (20 * p + 1) * q) by nia.
    assert (2 ^ 53 <= 20 * p + 1).
    { apply Z.mul_le_mono_pos_r with (p := q); assumption. }
    lia.
  - (* the numeral is too small *)
    assert (HY : 1 <= 20 * p - 2 * (q * n) - q) by lia.
    assert (HEY : E * (20 * p - 2 * (q * n) - q) <= 9 * q) by nia.
    assert (HE9 : E <= 9 * q) by nia.
    assert (2 * (p * E) <= 2 * p * (9 * q)) by nia.
    assert (2 ^ 53 * q <= (18 * p + 1) * q) by nia.
    assert (2 ^ 53 <= 18 * p + 1).
    { apply Z.mul_le_mono_pos_r with (p := q); assumption. }
    lia.
Qed.

Variable numberToString : double -> jsstring.

(** What [toFixed(1)] makes of [s / q]. *)
Lemma Number_toFixed1_of_quotient s q :
  0 < q ->
  20 * Z.abs s < 2 ^ 53 ->
  exists n,
    0 <= n
    /\ toFixed1 numberToString (divide s q)
       = (if s <? 0 then lit "-" else []) ++ oneDecimal n
    /\ 2 * Z.abs (q * n - 10 * Z.abs s) <= q.
Proof.
  intros Hq Hs. unfold divide.
  destruct (Z.eqb_spec q 0); [lia|].
  destruct (Z.eqb_spec s 0) as [->|Hs0].
  - exists 0. split; [lia|]. split; [|simpl; lia].
    destruct (Z.ltb_spec q 0); [lia|]. reflexivity.
  - assert (Hp : 0 < Z.abs s < 2 ^ 49) by lia.
    rewrite (Z.abs_eq q) by lia.
    destruct (roundQuotient_close (Z.abs s) q Hp Hq)
      as (m & e & -> & He & Hm & Hc).
    exists (tenths m e).
    destruct (tenths_floor m e He ltac:(lia)) as (Hn & _).
    split; [exact Hn|]. split.
    + unfold toFixed1.
      assert (Hsmall : atLeast1e21 m e = false).
      { unfold atLeast1e21. destruct (Z.leb_spec 0 e); [lia|].
        apply Z.leb_gt.
        assert (1 <= 2 ^ (- e)) by (apply Z.lt_pred_le, Z.pow_pos_nonneg; lia).
        nia. }
      rewrite Hsmall.
      destruct (Z.ltb_spec q 0); [lia|]. rewrite xorb_false_r.
      destruct (Z.ltb_spec 0 m); [|lia]. rewrite andb_true_r.
      reflexivity.
    + apply tenths_of_quotient; try assumption; lia.
Qed.

End NumberFacts.


(** * Proofs: the results view *)

Section StoreFacts.

Import RankedResult Results ResultsSpec.

Variable localeCompare : jsstring -> jsstring -> Z.
Variable numberToString : Number.double -> jsstring.

(** The code's stats, as a function of the contents of [results]. *)
Lemma Results_run h l rs sortBy threshold :
  arrays h !! l = Some rs ->
  rs <> [] ->
  let a := arrays h in
  let f := fresh (dom a) in
  let c := fresh (dom (<[f := atLeast threshold rs]> a)) in
  let view := stableSort (compareBy localeCompare sortBy)
                (atLeast threshold rs) in
  let sum := foldl (fun sum r => sum + score r) 0 rs in
  let count := Z.of_nat (length rs) in
  Results localeCompare numberToString (Some l) sortBy threshold h
  = Some
      (Listing
         (mkView f c view
            (mkStats (length rs)
               (Number.toFixed1 numberToString (Number.divide sum count))
               (Number.mathMax (score <$> rs)))),
       mkStore
         (<[c := view]> (<[c := atLeast threshold rs]>
                           (<[f := atLeast threshold rs]> a)))
         ((evaluated h ++ [Divide sum count])
            ++ [MathMax (score <$> rs)])).
Proof.
  intros Hl Hne a f c view sum count.
  assert (Hf : a !! f = None).
  { apply not_elem_of_dom. apply is_fresh. }
  assert (Hlf : l <> f).
  { intros ->. unfold a in Hf. congruence. }
  assert (Hc : <[f := atLeast threshold rs]> a !! c = None).
  { apply not_elem_of_dom. apply is_fresh. }
  assert (Hlc : l <> c).
  { intros ->. rewrite lookup_insert_ne in Hc by congruence.
    unfold a in Hc. congruence. }
  assert (Hfc : f <> c).
  { intros E. rewrite <- E, lookup_insert_eq in Hc. discriminate. }
  unfold Results, len, arrayFilter, spread, arraySort, arrayReduce,
    arrayMap, divide, mathMax, get, new, put, record.
  unfold mbind, mret, M_bind, M_ret.
  unfold view, sum, count, atLeast. unfold c, f, atLeast, a in *.
  destruct rs as [|r rs']; [congruence|].
  repeat (cbn [arrays evaluated length Nat.eqb];
          first [ rewrite Hl
                | rewrite lookup_insert_eq
                | rewrite lookup_insert_ne by congruence ]).
  reflexivity.
Qed.

Lemma Results_absent h sortBy threshold :
  Results localeCompare numberToString None sortBy threshold h
  = Some (EmptyState, h).
Proof. reflexivity. Qed.

Lemma Results_empty h l sortBy threshold :
  arrays h !! l = Some [] ->
  Results localeCompare numberToString (Some l) sortBy threshold h
  = Some (EmptyState, h).
Proof.
  intros Hl. unfold Results, len, get, mbind, mret, M_bind, M_ret.
  rewrite Hl. reflexivity.
Qed.

(** A render pass over a non-empty result set: what the view holds, and
    that the arrays there were before hold what they held. *)
Lemma Results_listing h l rs sortBy threshold :
  arrays h !! l = Some rs ->
  rs <> [] ->
  exists v h',
    Results localeCompare numberToString (Some l) sortBy threshold h
    = Some (Listing v, h')
    /\ cards v = stableSort (compareBy localeCompare sortBy)
                   (atLeast threshold rs)
    /\ arrays h' !! filtered v = Some (atLeast threshold rs)
    /\ arrays h' !! sorted v = Some (cards v)
    /\ (forall l', is_Some (arrays h !! l') ->
          arrays h' !! l' = arrays h !! l').
Proof.
  intros Hl Hne.
  rewrite (Results_run h l rs sortBy threshold Hl Hne).
  eexists _, _. split; [reflexivity|]. cbn [arrays sorted cards filtered].
  set (a := arrays h).
  set (f := fresh (dom a)).
  set (kept := atLeast threshold rs).
  set (c := fresh (dom (<[f := kept]> a))).
  assert (Hf : a !! f = None) by (apply not_elem_of_dom, is_fresh).
  assert (Hc : <[f := kept]> a !! c = None)
    by (apply not_elem_of_dom, is_fresh).
  assert (Hfc : f <> c).
  { intros E. rewrite <- E, lookup_insert_eq in Hc. discriminate. }
  split; [reflexivity|].
  split; [rewrite !lookup_insert_ne by congruence; apply lookup_insert_eq|].
  split; [apply lookup_insert_eq|].
  intros l' [xs Hxs].
  assert (l' <> f) by (intros ->; congruence).
  assert (l' <> c).
  { intros ->. rewrite lookup_insert_ne in Hc by exact Hfc. congruence. }
  rewrite !lookup_insert_ne by congruence. reflexivity.
Qed.

End StoreFacts.

Section ArrayFacts.

Import RankedResult Results ResultsSpec.

Variable localeCompare : jsstring -> jsstring -> Z.

(** Whatever the comparator, sorting permutes. *)
Lemma insertSorted_perm cmp x l : insertSorted cmp x l ≡ₚ x :: l.
Proof.
  induction l as [|y l IH]; simpl; [reflexivity|].
  destruct (0 <? cmp x y); [|reflexivity].
  rewrite IH. apply perm_swap.
Qed.

Lemma stableSort_perm cmp l : stableSort cmp l ≡ₚ l.
Proof.
  induction l as [|x l IH]; simpl; [reflexivity|].
  fold (stableSort cmp l). rewrite insertSorted_perm, IH. reflexivity.
Qed.

Lemma compareBy_score a b :
  compareBy localeCompare (lit "score") a b = score b - score a.
Proof. unfold compareBy. destruct (decide _); [reflexivity | congruence]. Qed.

Let byScore := compareBy localeCompare (lit "score").

Lemma insertSorted_desc x l :
  StronglySorted byScoreDesc l ->
  StronglySorted byScoreDesc (insertSorted byScore x l).
Proof.
  induction 1 as [|y l Hs IH Hy]; simpl.
  - constructor; constructor.
  - unfold byScore at 1. rewrite compareBy_score.
    destruct (Z.ltb_spec 0 (score y - score x)) as [Hlt|Hge].
    + constructor; [exact IH|].
      assert (Hp : Forall (byScoreDesc y) (x :: l)).
      { constructor; [unfold byScoreDesc; lia | exact Hy]. }
      rewrite <- (insertSorted_perm byScore x l) in Hp. exact Hp.
    + constructor; [constructor; assumption|].
      constructor; [unfold byScoreDesc; lia|].
      eapply Forall_impl; [exact Hy|].
      unfold byScoreDesc. intros z Hz. lia.
Qed.

Lemma stableSort_desc l : StronglySorted byScoreDesc (stableSort byScore l).
Proof.
  induction l as [|x l IH]; simpl; [constructor|].
  apply insertSorted_desc. exact IH.
Qed.

(** Insertion never moves a result past one of the same score. *)
Lemma insertSorted_withScore s x l :
  withScore s (insertSorted byScore x l) = withScore s (x :: l).
Proof.
  induction l as [|y l IH]; [reflexivity|].
  simpl insertSorted. unfold byScore at 1. rewrite compareBy_score.
  destruct (Z.ltb_spec 0 (score y - score x)) as [Hlt|Hge]; [|reflexivity].
  unfold withScore in *. simpl in *. rewrite IH.
  destruct (Z.eqb_spec (score x) s), (Z.eqb_spec (score y) s);
    try reflexivity; lia.
Qed.

Lemma stableSort_withScore s l :
  withScore s (stableSort byScore l) = withScore s l.
Proof.
  induction l as [|x l IH]; [reflexivity|].
  simpl stableSort. rewrite insertSorted_withScore.
  unfold withScore in *. simpl. fold (stableSort byScore l).
  rewrite IH. reflexivity.
Qed.

(** Sorting by score keeps subsequences: what a sublist sorts to is a
    sublist of what the list sorts to. *)
Lemma insertSorted_grows cmp x l : l `sublist_of` insertSorted cmp x l.
Proof.
  induction l as [|y l IH]; simpl; [repeat constructor|].
  destruct (0 <? cmp x y).
  - apply sublist_skip. exact IH.
  - apply sublist_cons. reflexivity.
Qed.

Lemma insertSorted_first x l :
  Forall (byScoreDesc x) l -> insertSorted byScore x l = x :: l.
Proof.
  destruct 1 as [|y l Hy _]; [reflexivity|]. simpl.
  unfold byScore. rewrite compareBy_score. unfold byScoreDesc in Hy.
  destruct (Z.ltb_spec 0 (score y - score x)); [lia | reflexivity].
Qed.

Lemma insertSorted_sublist x s1 s2 :
  StronglySorted byScoreDesc s2 ->
  s1 `sublist_of` s2 ->
  insertSorted byScore x s1 `sublist_of` insertSorted byScore x s2.
Proof.
  intros Hsorted Hsub.
  induction Hsub as [|y s1 s2 Hsub IH|y s1 s2 Hsub IH].
  - reflexivity.
  - apply StronglySorted_inv in Hsorted as [Hs2 _]. simpl.
    destruct (0 <? byScore x y).
    + apply sublist_skip, IH, Hs2.
    + reflexivity || (do 2 apply sublist_skip; exact Hsub).
  - apply StronglySorted_inv in Hsorted as [Hs2 Hy]. simpl.
    unfold byScore at 2. rewrite compareBy_score.
    destruct (Z.ltb_spec 0 (score y - score x)) as [Hlt|Hge].
    + apply sublist_cons, IH, Hs2.
    + rewrite insertSorted_first.
      * apply sublist_skip, sublist_cons, Hsub.
      * rewrite Forall_forall in Hy. apply Forall_forall. intros z Hz.
        pose proof (Hy z (elem_of_sublist _ _ _ Hz Hsub)) as Hyz.
        unfold byScoreDesc in *. lia.
Qed.

Lemma stableSort_sublist l1 l2 :
  l1 `sublist_of` l2 ->
  stableSort byScore l1 `sublist_of` stableSort byScore l2.
Proof.
  induction 1 as [|x l1 l2 Hsub IH|x l1 l2 Hsub IH]; simpl.
  - reflexivity.
  - apply insertSorted_sublist; [apply stableSort_desc | exact IH].
  - etransitivity; [exact IH | apply insertSorted_grows].
Qed.

Lemma atLeast_elem threshold rs r :
  r ∈ atLeast threshold rs <-> r ∈ rs /\ threshold <= score r.
Proof.
  unfold atLeast. rewrite !list_elem_of_In, filter_In, Z.leb_le. reflexivity.
Qed.

Lemma atLeast_sublist threshold rs : atLeast threshold rs `sublist_of` rs.
Proof.
  induction rs as [|r rs IH]; simpl; [constructor|].
  destruct (threshold <=? score r); constructor; exact IH.
Qed.

(** Raising the threshold only removes results. *)
Lemma atLeast_antitone t1 t2 rs :
  t1 <= t2 -> atLeast t2 rs `sublist_of` atLeast t1 rs.
Proof.
  intros Ht. induction rs as [|r rs IH]; simpl; [constructor|].
  destruct (Z.leb_spec t2 (score r)), (Z.leb_spec t1 (score r));
    try lia; try (constructor; exact IH); exact IH.
Qed.

End ArrayFacts.

Section ViewClaims.

Import RankedResult Results ResultsSpec.

Variable localeCompare : jsstring -> jsstring -> Z.
Variable numberToString : Number.double -> jsstring.

Let render := Results localeCompare numberToString.

(** C2. With the score key, the results shown are the filtered ones
    in descending order of score, and results of equal score keep the
    order they have in the result set: for every score, the results
    with that score appear in the sorted view as they do in the filtered
    one. The sort works on a copy: the result set, the filtered array and
    every other array there was hold what they held. *)
Theorem sort_by_score_descending_stable h l rs threshold :
  arrays h !! l = Some rs ->
  exists out h',
    render (Some l) (lit "score") threshold h = Some (out, h')
    /\ visible out ≡ₚ atLeast threshold rs
    /\ StronglySorted byScoreDesc (visible out)
    /\ (forall s,
          withScore s (visible out) = withScore s (atLeast threshold rs))
    /\ (forall v, out = Listing v ->
          arrays h' !! sorted v = Some (cards v)
          /\ arrays h' !! filtered v = Some (atLeast threshold rs))
    /\ arrays h' !! l = Some rs
    /\ (forall l', is_Some (arrays h !! l') ->
          arrays h' !! l' = arrays h !! l').
Proof.
  intros Hl. unfold render. destruct (decide (rs = [])) as [->|Hne].
  - exists EmptyState, h. rewrite Results_empty by exact Hl. simpl.
    split; [reflexivity|]. split; [reflexivity|]. split; [constructor|].
    split; [reflexivity|]. split; [intros v Hv; discriminate|].
    split; [exact Hl | reflexivity].
  - destruct (Results_listing localeCompare numberToString h l rs
                (lit "score") threshold Hl Hne)
      as (v & h' & Hrun & Hcards & Hf & Hs & Hframe).
    exists (Listing v), h'. split; [exact Hrun|]. simpl. rewrite Hcards.
    split; [apply stableSort_perm|].
    split; [apply stableSort_desc|].
    split; [intros s; apply stableSort_withScore|].
    split.
    { intros v' [= <-]. rewrite Hs, Hcards. split; [reflexivity | exact Hf]. }
    split; [|exact Hframe].
    rewrite Hframe; [exact Hl | rewrite Hl; eauto].
Qed.

(** C4. What a render pass keeps are exactly the results whose score is
    at least the threshold, in their order, and the result set holds
    what it held. Filtering is monotonic: of two thresholds, the larger
    keeps a subsequence of what the smaller keeps and shows no more
    results; with the score key the results it shows are a subsequence
    of those shown for the smaller. *)
Theorem filter_keeps_scores_at_least_threshold h l rs sortBy t1 t2 :
  arrays h !! l = Some rs ->
  t1 <= t2 ->
  exists out1 h1 out2 h2,
    render (Some l) sortBy t1 h = Some (out1, h1)
    /\ render (Some l) sortBy t2 h = Some (out2, h2)
    /\ visible out1 ≡ₚ atLeast t1 rs
    /\ visible out2 ≡ₚ atLeast t2 rs
    /\ (forall v, out1 = Listing v ->
          arrays h1 !! filtered v = Some (atLeast t1 rs))
    /\ (forall v, out2 = Listing v ->
          arrays h2 !! filtered v = Some (atLeast t2 rs))
    /\ (forall t r, r ∈ atLeast t rs <-> r ∈ rs /\ t <= score r)
    /\ (forall t, atLeast t rs `sublist_of` rs)
    /\ atLeast t2 rs `sublist_of` atLeast t1 rs
    /\ (length (visible out2) <= length (visible out1))%nat
    /\ (sortBy = lit "score" -> visible out2 `sublist_of` visible out1)
    /\ arrays h1 !! l = Some rs
    /\ arrays h2 !! l = Some rs.
Proof.
  intros Hl Ht. unfold render.
  assert (Hspec :
    (forall t r, r ∈ atLeast t rs <-> r ∈ rs /\ t <= score r)
    /\ (forall t, atLeast t rs `sublist_of` rs)
    /\ atLeast t2 rs `sublist_of` atLeast t1 rs).
  { split; [intros t r; apply atLeast_elem|].
    split; [intros t; apply atLeast_sublist|].
    apply atLeast_antitone; exact Ht. }
  destruct (decide (rs = [])) as [->|Hne].
  - exists EmptyState, h, EmptyState, h.
    rewrite !Results_empty by exact Hl. simpl.
    split; [reflexivity|]. split; [reflexivity|].
    split; [reflexivity|]. split; [reflexivity|].
    split; [intros v Hv; discriminate|].
    split; [intros v Hv; discriminate|].
    destruct Hspec as (H1 & H2 & H3).
    split; [exact H1|]. split; [exact H2|]. split; [exact H3|].
    split; [lia|]. split; [reflexivity|]. split; exact Hl.
  - destruct (Results_listing localeCompare numberToString h l rs sortBy
                t1 Hl Hne) as (v1 & h1 & Hrun1 & Hc1 & Hf1 & _ & Hframe1).
    destruct (Results_listing localeCompare numberToString h l rs sortBy
                t2 Hl Hne) as (v2 & h2 & Hrun2 & Hc2 & Hf2 & _ & Hframe2).
    exists (Listing v1), h1, (Listing v2), h2.
    split; [exact Hrun1|]. split; [exact Hrun2|]. simpl.
    rewrite Hc1, Hc2.
    split; [apply stableSort_perm|]. split; [apply stableSort_perm|].
    split; [intros v [= <-]; exact Hf1|].
    split; [intros v [= <-]; exact Hf2|].
    destruct Hspec as (H1 & H2 & H3).
    split; [exact H1|]. split; [exact H2|]. split; [exact H3|].
    split; [rewrite !stableSort_perm; apply sublist_length, H3|].
    split; [intros ->; apply stableSort_sublist, H3|].
    split; [rewrite Hframe1 | rewrite Hframe2];
      (exact Hl || (rewrite Hl; eauto)).
Qed.

End ViewClaims.

Section StatsFacts.

Import RankedResult Results ResultsSpec.

Lemma reduce_sum (rs : list RankedResult.t) (init : Z) :
  foldl (fun sum r => sum + score r) init rs = init + sumZ (score <$> rs).
Proof.
  unfold sumZ. revert init.
  induction rs as [|r rs IH]; intros init; csimpl; [lia|].
  rewrite IH. lia.
Qed.

(** [Math.max] from a first argument on: the largest seen so far. *)
Lemma mathMax_from (a : Z) (l : list Z) :
  exists mx,
    foldl Number.maxOf (Number.Int a) l = Number.Int mx
    /\ a <= mx
    /\ Forall (fun z => z <= mx) l
    /\ (mx = a \/ mx ∈ l).
Proof.
  revert a. induction l as [|z l IH]; intros a; simpl.
  - exists a. repeat split; [lia | constructor | left; reflexivity].
  - destruct (IH (Z.max a z)) as (mx & Hmx & Hle & Hall & Hin).
    exists mx. split; [exact Hmx|]. split; [lia|].
    split; [constructor; [lia | exact Hall]|].
    destruct Hin as [Hin|Hin].
    + destruct (Z.max_spec a z) as [[_ E]|[_ E]]; rewrite E in Hin.
      * right. subst mx. constructor.
      * left. exact Hin.
    + right. constructor. exact Hin.
Qed.

Lemma mathMax_top (rs : list RankedResult.t) :
  rs <> [] ->
  exists mx,
    Number.mathMax (score <$> rs) = Number.Int mx /\ IsTopScore rs mx.
Proof.
  destruct rs as [|r rs]; [congruence|]. intros _.
  unfold Number.mathMax. simpl.
  destruct (mathMax_from (score r) (score <$> rs))
    as (mx & Hmx & Hle & Hall & Hin).
  exists mx. split; [exact Hmx|]. split.
  - destruct Hin as [->|Hin].
    + exists r. split; [constructor | reflexivity].
    + apply list_elem_of_fmap in Hin as (r' & -> & Hr').
      exists r'. split; [constructor; exact Hr' | reflexivity].
  - intros r' Hr'. apply elem_of_cons in Hr' as [->|Hr']; [exact Hle|].
    rewrite Forall_forall in Hall. apply Hall.
    apply list_elem_of_fmap_2. exact Hr'.
Qed.

End StatsFacts.

Section StatsClaims.

Import RankedResult Results ResultsSpec.

Variable localeCompare : jsstring -> jsstring -> Z.
Variable numberToString : Number.double -> jsstring.

Let render := Results localeCompare numberToString.

(** C3. The stats of a non-empty result set are the same under every
    sort key and every threshold, and they are those of the whole result
    set: [total] is its length, [topScore] the maximum of its scores, and
    [avgScore] a numeral with one fraction digit that is nearest to the
    mean of its scores (with the sign of the sum in front, and within
    0.05 of the mean in magnitude). *)
Theorem stats_over_unfiltered_results h l rs :
  arrays h !! l = Some rs ->
  rs <> [] ->
  ExactRange rs ->
  exists s,
    (forall sortBy threshold,
        exists v h',
          render (Some l) sortBy threshold h = Some (Listing v, h')
          /\ stats v = s)
    /\ total s = length rs
    /\ (exists mx, topScore s = Number.Int mx /\ IsTopScore rs mx)
    /\ (exists n,
           0 <= n
           /\ avgScore s
              = (if sumZ (score <$> rs) <? 0 then lit "-" else [])
                  ++ Number.oneDecimal n
           /\ 2 * Z.abs (Z.of_nat (length rs) * n
                         - 10 * Z.abs (sumZ (score <$> rs)))
              <= Z.of_nat (length rs)).
Proof.
  intros Hl Hne Hrange.
  exists (mkStats (length rs)
            (Number.toFixed1 numberToString
               (Number.divide (foldl (fun sum r => sum + score r) 0 rs)
                  (Z.of_nat (length rs))))
            (Number.mathMax (score <$> rs))).
  split.
  { intros sortBy threshold. unfold render.
    rewrite (Results_run localeCompare numberToString h l rs sortBy
               threshold Hl Hne).
    eexists _, _. split; reflexivity. }
  cbn [total topScore avgScore].
  split; [reflexivity|]. split; [apply mathMax_top; exact Hne|].
  rewrite reduce_sum, Z.add_0_l.
  apply Number_toFixed1_of_quotient.
  - destruct rs; [congruence | simpl; lia].
  - specialize (Hrange (length rs)). rewrite firstn_all in Hrange.
    exact Hrange.
Qed.

(** C8. For a result set that is absent or empty the component returns
    the placeholder and derives nothing: no array is built, no division
    and no maximum is evaluated. Every division a render pass evaluates
    has a non-zero divisor and every maximum at least one argument, and
    a listing shows a finite top score over at least one result. *)
Theorem empty_results_render_placeholder h results sortBy threshold :
  (forall l, results = Some l -> is_Some (arrays h !! l)) ->
  exists out h' ops,
    render results sortBy threshold h = Some (out, h')
    /\ evaluated h' = evaluated h ++ ops
    /\ Forall wellDefined ops
    /\ ((results = None \/
         exists l, results = Some l /\ arrays h !! l = Some []) ->
        out = EmptyState /\ h' = h /\ ops = [])
    /\ (forall v, out = Listing v ->
          (0 < total (stats v))%nat
          /\ topScore (stats v) <> Number.NegInfinity
          /\ ops <> []).
Proof.
  intros Hlive. unfold render. destruct results as [l|].
  - destruct (Hlive l eq_refl) as [rs Hl]. destruct rs as [|r rs].
    + exists EmptyState, h, []. rewrite Results_empty by exact Hl.
      split; [reflexivity|]. split; [rewrite app_nil_r; reflexivity|].
      split; [constructor|]. split; [intros _; repeat split|].
      intros v Hv. discriminate.
    + assert (Hne : r :: rs <> []) by discriminate.
      rewrite (Results_run localeCompare numberToString h l (r :: rs)
                 sortBy threshold Hl Hne).
      eexists _, _, [_; _]. split; [reflexivity|].
      cbn [evaluated]. split; [rewrite <- app_assoc; reflexivity|].
      split.
      { constructor; [simpl; lia|]. constructor; [|constructor].
        simpl. discriminate. }
      split.
      { intros [H|(l' & Hl' & He)]; [discriminate|].
        injection Hl' as <-. rewrite Hl in He. discriminate. }
      intros v Hv. injection Hv as <-. cbn [stats total topScore].
      split; [simpl; lia|]. split; [|discriminate].
      destruct (mathMax_top (r :: rs) Hne) as (mx & Hmx & _).
      change (Number.mathMax (score <$> r :: rs) <> Number.NegInfinity).
      rewrite Hmx. discriminate.
  - exists EmptyState, h, []. rewrite Results_absent.
    split; [reflexivity|]. split; [rewrite app_nil_r; reflexivity|].
    split; [constructor|]. split; [intros _; repeat split|].
    intros v Hv. discriminate.
Qed.

End StatsClaims.

Section BadgeClaims.

Import Results ResultsSpec.

(** C5. The badge of a score is that of one of four categories, by
    fixed thresholds: Excellent from 80 up, Good from 60 to 79, Fair
    from 40 to 59, Poor below 40. The function has no other input. *)
Theorem badge_by_fixed_thresholds (score : Z) :
  (80 <= score -> getScoreBadge score = badge Excellent)
  /\ (60 <= score < 80 -> getScoreBadge score = badge Good)
  /\ (40 <= score < 60 -> getScoreBadge score = badge Fair)
  /\ (score < 40 -> getScoreBadge score = badge Poor).
Proof.
  unfold getScoreBadge.
  destruct (Z.leb_spec 80 score); [repeat split; intros; (reflexivity || lia)|].
  destruct (Z.leb_spec 60 score); [repeat split; intros; (reflexivity || lia)|].
  destruct (Z.leb_spec 40 score); repeat split; intros; (reflexivity || lia).
Qed.

Lemma badge_inj c c' : badge c = badge c' -> c = c'.
Proof. destruct c, c'; intros H; (reflexivity || discriminate H). Qed.

(** C10. Every integer score, in or out of [0,100], gets the badge of
    exactly one category: Excellent for every score from 80 up, Poor
    for every score below 40. *)
Theorem badge_total_on_all_scores (score : Z) :
  (exists c, getScoreBadge score = badge c
             /\ forall c', getScoreBadge score = badge c' -> c' = c)
  /\ (80 <= score -> getScoreBadge score = badge Excellent)
  /\ (score < 40 -> getScoreBadge score = badge Poor).
Proof.
  assert (Hc : exists c, getScoreBadge score = badge c).
  { unfold getScoreBadge.
    destruct (80 <=? score); [exists Excellent; reflexivity|].
    destruct (60 <=? score); [exists Good; reflexivity|].
    destruct (40 <=? score); [exists Fair | exists Poor]; reflexivity. }
  split.
  - destruct Hc as [c Hc]. exists c. split; [exact Hc|].
    intros c' Hc'. apply badge_inj. congruence.
  - unfold getScoreBadge. split; intros H.
    + destruct (Z.leb_spec 80 score); [reflexivity | lia].
    + destruct (Z.leb_spec 80 score); [lia|].
      destruct (Z.leb_spec 60 score); [lia|].
      destruct (Z.leb_spec 40 score); [lia | reflexivity].
Qed.

End BadgeClaims.

Section ResultsInstances.

Import RankedResult Results ResultsSpec.

Let render := Results noLocale noToString.

(** The division of [Number] is that of binary64. *)
Example roundQuotient_is_binary64_division :
  NumberSpec.agreeOn (NumberSpec.fromTo 1 150) (NumberSpec.fromTo 1 40) = true
  /\ NumberSpec.agreeOn (NumberSpec.fromTo (2 ^ 53 - 20) (2 ^ 53 - 1))
       (NumberSpec.fromTo 1 40) = true
  /\ NumberSpec.agreeOn (NumberSpec.fromTo 1 40)
       (NumberSpec.fromTo (2 ^ 53 - 20) (2 ^ 53 - 1)) = true.
Proof. vm_compute. repeat split. Qed.

(** [toFixed] rounds the double, not the fraction: 3/20 is the double
    just below 0.15 and shows as 0.1, 5/20 is 0.25 exactly and shows as
    0.3, 1403/20 is the double just above 70.15 and shows as 70.2. *)
Example average_halfway_cases :
  Number.toFixed1 noToString (Number.divide 3 20) = lit "0.1"
  /\ Number.toFixed1 noToString (Number.divide 5 20) = lit "0.3"
  /\ Number.toFixed1 noToString (Number.divide 1403 20) = lit "70.2".
Proof. vm_compute. repeat split. Qed.

(** Two candidates with score 50 stay in their order. *)
Lemma sort_by_score_descending_stable_witness :
  let a := candidate "A" 50 in
  let b := candidate "B" 50 in
  exists out h',
    render (Some 1%positive) (lit "score") 0 (storeWith [a; b])
    = Some (out, h')
    /\ visible out = [a; b]
    /\ arrays h' !! 1%positive = Some [a; b].
Proof.
  intros a b.
  destruct (sort_by_score_descending_stable noLocale noToString
              (storeWith [a; b]) 1%positive [a; b] 0 eq_refl)
    as (out & h' & Hrun & _ & _ & _ & _ & Hin & _).
  exists out, h'. split; [exact Hrun|]. split; [|exact Hin].
  vm_compute in Hrun. injection Hrun as <- _. reflexivity.
Defined.

Lemma filter_keeps_scores_at_least_threshold_witness :
  let rs := [candidate "A" 90; candidate "B" 50; candidate "C" 70;
             candidate "D" 30] in
  exists out1 h1 out2 h2,
    render (Some 1%positive) (lit "score") 40 (storeWith rs)
    = Some (out1, h1)
    /\ render (Some 1%positive) (lit "score") 60 (storeWith rs)
       = Some (out2, h2)
    /\ visible out1
       = [candidate "A" 90; candidate "C" 70; candidate "B" 50]
    /\ visible out2 = [candidate "A" 90; candidate "C" 70]
    /\ arrays h2 !! 1%positive = Some rs.
Proof.
  intros rs.
  destruct (filter_keeps_scores_at_least_threshold noLocale noToString
              (storeWith rs) 1%positive rs (lit "score") 40 60 eq_refl
              ltac:(lia))
    as (out1 & h1 & out2 & h2 & Hr1 & Hr2 & _ & _ & _ & _ & _ & _ & _ & _
        & _ & _ & Hin).
  exists out1, h1, out2, h2. split; [exact Hr1|]. split; [exact Hr2|].
  split; [|split; [|exact Hin]].
  - vm_compute in Hr1. injection Hr1 as <- _. reflexivity.
  - vm_compute in Hr2. injection Hr2 as <- _. reflexivity.
Defined.

Lemma threeScores_exact :
  ExactRange [candidate "P" 90; candidate "Q" 70; candidate "R" 50].
Proof.
  intros k. do 4 (destruct k as [|k]; [vm_compute; reflexivity|]).
  vm_compute. reflexivity.
Defined.

(** Scores 90, 70 and 50: three results, average 70.0, top score 90,
    whatever the sort key and the threshold. *)
Lemma stats_over_unfiltered_results_witness :
  let rs := [candidate "P" 90; candidate "Q" 70; candidate "R" 50] in
  ExactRange rs
  /\ exists s,
       (forall sortBy threshold,
           exists v h',
             render (Some 1%positive) sortBy threshold (storeWith rs)
             = Some (Listing v, h')
             /\ stats v = s)
       /\ s = mkStats 3 (lit "70.0") (Number.Int 90).
Proof.
  intros rs. split; [exact threeScores_exact|].
  destruct (stats_over_unfiltered_results noLocale noToString
              (storeWith rs) 1%positive rs eq_refl ltac:(discriminate)
              threeScores_exact)
    as (s & Hall & _).
  exists s. split; [exact Hall|].
  destruct (Hall (lit "score") 0) as (v & h' & Hrun & <-).
  vm_compute in Hrun. injection Hrun as <- _. reflexivity.
Defined.

(** An empty result set: the placeholder, and the store as it was. *)
Lemma empty_results_render_placeholder_witness :
  render (Some 1%positive) (lit "score") 0 (storeWith [])
  = Some (EmptyState, storeWith []).
Proof.
  assert (Hlive : forall l, Some 1%positive = Some l ->
            is_Some (arrays (storeWith []) !! l)).
  { intros l [= <-]. exists []. reflexivity. }
  destruct (empty_results_render_placeholder noLocale noToString
              (storeWith []) (Some 1%positive) (lit "score") 0 Hlive)
    as (out & h' & ops & Hrun & _ & _ & Hempty & _).
  destruct Hempty as (-> & -> & _); [|exact Hrun].
  right. exists 1%positive. split; reflexivity.
Defined.

(** The boundary scores 79, 80, 60 and 39. *)
Lemma badge_by_fixed_thresholds_witness :
  getScoreBadge 79 = badge Good
  /\ getScoreBadge 80 = badge Excellent
  /\ getScoreBadge 60 = badge Good
  /\ getScoreBadge 39 = badge Poor.
Proof.
  split; [apply (badge_by_fixed_thresholds 79); lia|].
  split; [apply (badge_by_fixed_thresholds 80); lia|].
  split; [apply (badge_by_fixed_thresholds 60); lia|].
  apply (badge_by_fixed_thresholds 39); lia.
Defined.

(** Scores outside [0,100]. *)
Lemma badge_total_on_all_scores_witness :
  getScoreBadge 150 = badge Excellent /\ getScoreBadge (-5) = badge Poor.
Proof.
  split.
  - apply (badge_total_on_all_scores 150); lia.
  - apply (badge_total_on_all_scores (-5)); lia.
Defined.

End ResultsInstances.

(** * Further properties: the upload form *)

Section TrimFacts.

Import ViewSpec.

Lemma trimStart_spaces ws s :
  Forall isSpace ws -> trimStart (ws ++ s) = trimStart s.
Proof.
  induction 1 as [|c ws Hc _ IH]; [reflexivity|].
  simpl. unfold isSpace in Hc. rewrite Hc. exact IH.
Qed.

Lemma trimStart_all_spaces ws : Forall isSpace ws -> trimStart ws = [].
Proof.
  intros H. rewrite <- (app_nil_r ws). rewrite trimStart_spaces by exact H.
  reflexivity.
Qed.

Lemma trimStart_app s t :
  trimStart s <> [] -> trimStart (s ++ t) = trimStart s ++ t.
Proof.
  induction s as [|c s IH]; simpl; [congruence|].
  destruct (isWhiteSpace c); [exact IH | reflexivity].
Qed.

Lemma trimStart_spaces_only s : trimStart s = [] -> Forall isSpace s.
Proof.
  induction s as [|c s IH]; simpl; [constructor|].
  destruct (isWhiteSpace c) eqn:Hc; [|discriminate].
  intros H. constructor; [exact Hc | exact (IH H)].
Qed.

Lemma trimEnd_spaces s ws :
  Forall isSpace ws -> trimEnd (s ++ ws) = trimEnd s.
Proof.
  intros H. unfold trimEnd. rewrite reverse_app.
  rewrite trimStart_spaces; [reflexivity|].
  apply Forall_reverse. exact H.
Qed.

Lemma trimStart_length s : (length (trimStart s) <= length s)%nat.
Proof.
  induction s as [|c s IH]; simpl; [lia|].
  destruct (isWhiteSpace c); simpl; lia.
Qed.

Lemma trim_length s : (length (trim s) <= length s)%nat.
Proof.
  unfold trim, trimEnd. rewrite length_reverse.
  etransitivity; [apply trimStart_length|].
  rewrite length_reverse. apply trimStart_length.
Qed.

(** White space around a string does not change what [trim] gives. *)
Lemma trim_padded ws1 s ws2 :
  Forall isSpace ws1 -> Forall isSpace ws2 ->
  trim (ws1 ++ s ++ ws2) = trim s.
Proof.
  intros H1 H2. unfold trim. rewrite trimStart_spaces by exact H1.
  destruct (decide (trimStart s = [])) as [He|Hne].
  - rewrite He.
    rewrite trimStart_all_spaces; [reflexivity|].
    apply Forall_app. split; [apply trimStart_spaces_only, He | exact H2].
  - rewrite trimStart_app by exact Hne. apply trimEnd_spaces, H2.
Qed.

End TrimFacts.

Section FormProperties.

Import UploadForm SubmissionSpec SubmitPhases ViewSpec.

#[local] Arguments lit : simpl never.

Variable transport : Api.FormData -> Api.Settled.

Lemma omap_fmap_some {A B} (f : A -> B) (g : B -> option A) (l : list A) :
  (forall a, g (f a) = Some a) -> omap g (f <$> l) = l.
Proof.
  intros H. induction l as [|a l IH]; [reflexivity|].
  csimpl. rewrite H, IH. reflexivity.
Qed.

Lemma omap_fmap_none {A B C} (f : A -> B) (g : B -> option C) (l : list A) :
  (forall a, g (f a) = None) -> omap g (f <$> l) = [].
Proof.
  intros H. induction l as [|a l IH]; [reflexivity|].
  csimpl. rewrite H, IH. reflexivity.
Qed.

Lemma resumesOf_rankFormData d fs :
  resumesOf (Api.rankFormData d fs) = fs.
Proof.
  unfold Api.rankFormData, resumesOf. csimpl.
  apply omap_fmap_some. reflexivity.
Qed.

Lemma fieldsOf_rankFormData d fs :
  fieldsOf (Api.rankFormData d fs) = [(lit "job_description", d)].
Proof.
  unfold Api.rankFormData, fieldsOf. csimpl. f_equal.
  apply omap_fmap_none. reflexivity.
Qed.

Lemma errorMessage_truthy e : truthy (errorMessage e) = true.
Proof. destruct e; reflexivity. Qed.

Lemma responseRejected_truthy e :
  truthy (Api.message (Api.responseRejected e)) = true.
Proof.
  destruct e as [[s|] m]; simpl; unfold or_else.
  - destruct (truthy s) eqn:Hs; [exact Hs|].
    destruct (truthy m) eqn:Hm; [exact Hm | reflexivity].
  - destruct (truthy m) eqn:Hm; [exact Hm | reflexivity].
Qed.

Lemma or_else_truthy a b : truthy a = true -> or_else a b = a.
Proof. unfold or_else. intros ->. reflexivity. Qed.

(** X1. Every request the form sends meets the limits the form
    checks: it is the only request of the run; its body is the field
    [job_description] with the job description as typed (not trimmed),
    of trimmed length at least 50, followed by one part [resumes] per
    selected file, in their order, between one and ten of them, each
    within 5 MiB, and nothing else. *)
Theorem sent_request_meets_limits st body :
  body ∈ networkCalls (trace (handleSubmit transport st)) ->
  networkCalls (trace (handleSubmit transport st)) = [body]
  /\ body = (lit "job_description", Api.Field (jd st))
              :: ((fun f => (lit "resumes", Api.Blob f)) <$> files st)
  /\ fieldsOf body = [(lit "job_description", jd st)]
  /\ resumesOf body = files st
  /\ (50 <= length (trim (jd st)) <= charCount st)%nat
  /\ (1 <= length (files st) <= 10)%nat
  /\ Forall withinLimit (files st)
  /\ length body = S (length (files st)).
Proof.
  destruct (FirstFailure_total (jd st) (files st)) as [r Hr].
  pose proof (handleSubmit_trace transport st r Hr) as Ht. intros Hin.
  rewrite Ht in Hin |- *. destruct r as [e|].
  - simpl in Hin. inversion Hin.
  - assert (Hcalls :
      networkCalls
        ([SetError []; SetLoading true; SetProgress 10; SetProgress 30;
          PostRank (Api.rankFormData (jd st) (files st))]
         ++ match Api.settle
                    (transport (Api.rankFormData (jd st) (files st))) with
            | Api.Resolved data =>
                [SetProgress 100; SetResults data; SetJd []; SetFiles []]
            | Api.Rejected err =>
                [SetError (or_else (Api.message err)
                   (lit "Failed to rank resumes. Please try again."));
                 ConsoleError err]
            end ++ [SetLoading false; SetProgress 0])
      = [Api.rankFormData (jd st) (files st)]).
    { simpl. destruct (Api.settle _); reflexivity. }
    cbv zeta in Hin |- *. rewrite Hcalls in Hin |- *.
    apply list_elem_of_singleton in Hin. subst body.
    split; [reflexivity|].
    split; [reflexivity|].
    split; [apply fieldsOf_rankFormData|].
    split; [apply resumesOf_rankFormData|].
    inversion Hr as [| | | | |Hl Hne Hn Hall]; subst.
    split; [split; [exact Hl | apply trim_length]|].
    split; [split; [destruct (files st); [congruence | simpl; lia] | exact Hn]|].
    split; [exact Hall|].
    unfold Api.rankFormData. simpl. rewrite length_fmap. reflexivity.
Qed.

(** X2. When the request fails, the error the form shows is the
    [error] string of the service's reply if it has one that is not
    empty, else the message of the transport error if that is not empty,
    else "Network error". It is never empty, so the form's own fallback
    text is not what decides it. *)
Theorem remote_failure_message st e :
  FirstFailure (jd st) (files st) None ->
  transport (Api.rankFormData (jd st) (files st)) = Api.Failed e ->
  let shown := error (submit transport st) in
  shown <> []
  /\ errorShown (submit transport st) = Some shown
  /\ (forall s, Api.response_data_error e = Some s -> s <> [] -> shown = s)
  /\ (Api.response_data_error e = None
      \/ Api.response_data_error e = Some [] ->
      (Api.axios_message e <> [] -> shown = Api.axios_message e)
      /\ (Api.axios_message e = [] -> shown = lit "Network error")).
Proof.
  intros Hr He shown.
  assert (Hshown : shown = Api.message (Api.responseRejected e)).
  { unfold shown, submit. rewrite (handleSubmit_trace transport st None Hr).
    cbv zeta. rewrite He. cbn [Api.settle app]. unfold commit. simpl.
    apply or_else_truthy, responseRejected_truthy. }
  pose proof (responseRejected_truthy e) as Ht. rewrite <- Hshown in Ht.
  split; [intros E; rewrite E in Ht; discriminate|].
  split; [unfold errorShown; fold shown; rewrite Ht; reflexivity|].
  rewrite Hshown. destruct e as [o m]. cbn [Api.response_data_error
    Api.axios_message Api.responseRejected Api.message] in *.
  split.
  - intros s -> Hs. simpl. apply or_else_truthy.
    destruct s; [congruence | reflexivity].
  - intros [->| ->]; simpl; unfold or_else; simpl;
      (split; intros Hm; [destruct m; [congruence | reflexivity]
                         | rewrite Hm; reflexivity]).
Qed.

(** X3. After a run the form shows an error exactly when the run
    published no result set: a success leaves no error, every failure
    leaves one. *)
Theorem error_shown_iff_nothing_published st :
  let t := trace (handleSubmit transport st) in
  (errorShown (submit transport st) = None <->
   exists data, published t = [data])
  /\ (errorShown (submit transport st) <> None <-> published t = []).
Proof.
  destruct (FirstFailure_total (jd st) (files st)) as [r Hr].
  intros t. unfold t, submit, errorShown.
  rewrite (handleSubmit_trace transport st r Hr).
  destruct r as [e|].
  - simpl. rewrite errorMessage_truthy.
    split; split; try discriminate; try reflexivity.
    intros [d Hd]. discriminate.
  - cbv zeta. destruct (Api.settle _) as [data|err] eqn:Hs.
    + simpl. split; split; try reflexivity; try congruence.
      intros _. exists data. reflexivity.
    + pose proof Hs as Hs'. unfold Api.settle in Hs'.
      destruct (transport _) as [d|ax]; [discriminate|].
      injection Hs' as <-.
      simpl. rewrite (or_else_truthy _ _ (responseRejected_truthy ax)).
      rewrite responseRejected_truthy.
      split; split; try discriminate; try reflexivity.
      intros [d Hd]. discriminate.
Qed.

(** X4. White space before and after the job description changes
    nothing in what validation finds: the padded description passes or
    fails the same check with the same error. *)
Theorem padding_does_not_change_validation st ws1 ws2 :
  Forall isSpace ws1 ->
  Forall isSpace ws2 ->
  validateInputs (update st (SetJd (ws1 ++ jd st ++ ws2)))
  = validateInputs st.
Proof.
  intros H1 H2. unfold validateInputs. cbn [update jd files].
  rewrite trim_padded by assumption. reflexivity.
Qed.

(** X5. A run is its start followed, if a request was sent, by its
    resumption with the settled promise. While the request is in flight
    the form is loading with its controls disabled, shows the progress
    30 and no error, holds both inputs as they were, and a click on the
    button does nothing. When validation fails nothing is in flight and
    the state after the start is the final one. *)
Theorem submission_in_flight st r :
  FirstFailure (jd st) (files st) r ->
  let start := handleSubmitStart st in
  let p := inFlight st in
  match r with
  | None =>
      let body := Api.rankFormData (jd st) (files st) in
      start.2 = Some body
      /\ trace (handleSubmit transport st)
         = trace start
             ++ trace (handleSubmitResume (Api.settle (transport body)))
      /\ controlsDisabled p = true
      /\ progressShown p = Some 30
      /\ errorShown p = None
      /\ jd p = jd st /\ files p = files st
      /\ (forall transport', trace (clickSubmit transport' p) = [])
  | Some e =>
      start.2 = None
      /\ trace (handleSubmit transport st) = trace start
      /\ p = submit transport st
      /\ controlsDisabled p = loading st
  end.
Proof.
  intros Hr start p.
  pose proof (validateInputs_first_failure st r Hr) as Hv.
  pose proof (handleSubmit_trace transport st r Hr) as Ht.
  unfold p, inFlight, submit. rewrite Ht.
  unfold start, handleSubmitStart, trace, mbind, M_bind. rewrite Hv.
  destruct r as [e|].
  - simpl. repeat split; reflexivity.
  - cbv zeta. split; [reflexivity|].
    split.
    { unfold handleSubmitResume. simpl. destruct (Api.settle _); reflexivity. }
    simpl. repeat split; reflexivity.
Qed.

End FormProperties.

Section FormInvariants.

Import UploadForm SubmissionSpec SubmitPhases ViewSpec.

(** X15. Between two handler runs the form is idle, whatever was
    submitted or edited before: its controls are enabled and the
    progress bar is not shown. An edit of the job description or of the
    file selection stores the new value, removes the error message and
    leaves the other input as it is. *)
Theorem form_idle_between_runs st :
  Reachable st ->
  controlsDisabled st = false
  /\ progressShown st = None
  /\ (forall value,
        let st' := commit st (trace (handleJdChange st value)) in
        jd st' = value /\ files st' = files st /\ errorShown st' = None
        /\ Reachable st')
  /\ (forall targetFiles,
        let st' := commit st (trace (handleFileChange targetFiles)) in
        files st' = targetFiles /\ jd st' = jd st /\ errorShown st' = None
        /\ Reachable st').
Proof.
  intros HR. destruct (reachable_idle st HR) as [Hl Hp].
  unfold controlsDisabled, progressShown. rewrite Hl.
  split; [reflexivity|]. split; [reflexivity|]. split.
  - intros value.
    pose proof (ReachJdChange value st HR) as HR'.
    unfold handleJdChange, errorShown in *.
    destruct (truthy (error st)) eqn:He; simpl in *.
    + repeat split; try reflexivity. exact HR'.
    + rewrite He. repeat split; try reflexivity. exact HR'.
  - intros targetFiles.
    pose proof (ReachFileChange targetFiles st HR) as HR'.
    unfold handleFileChange, errorShown in *. simpl in *.
    repeat split; try reflexivity. exact HR'.
Qed.

End FormInvariants.


(** * Further properties: the results view *)

Section CardProperties.

Import RankedResult Results ResultsSpec ResultsCards ViewSpec.

#[local] Arguments lit : simpl never.

(** The badge and the colour of a score, by its tier. *)
Lemma tier_of_score (score : Z) :
  exists c,
    getScoreBadge score = badge c
    /\ getScoreColor score = color c
    /\ match c with
       | Excellent => 80 <= score
       | Good => 60 <= score < 80
       | Fair => 40 <= score < 60
       | Poor => score < 40
       end.
Proof.
  unfold getScoreBadge, getScoreColor.
  destruct (Z.leb_spec 80 score); [exists Excellent; repeat split; lia|].
  destruct (Z.leb_spec 60 score); [exists Good; repeat split; lia|].
  destruct (Z.leb_spec 40 score); [exists Fair | exists Poor];
    repeat split; lia.
Qed.

Lemma color_inj c c' : color c = color c' -> c = c'.
Proof. destruct c, c'; intros H; (reflexivity || discriminate H). Qed.

(** X6. The badge and the colour of a score are those of the same
    category, and a higher score never gets a lower category. *)
Theorem badge_and_color_agree (s1 s2 : Z) :
  (exists c, getScoreBadge s1 = badge c /\ getScoreColor s1 = color c)
  /\ (s1 <= s2 ->
      forall c1 c2,
        getScoreColor s1 = color c1 -> getScoreBadge s2 = badge c2 ->
        level c1 <= level c2).
Proof.
  destruct (tier_of_score s1) as (a1 & Hb1 & Hc1 & Ht1).
  destruct (tier_of_score s2) as (a2 & Hb2 & Hc2 & Ht2).
  split; [exists a1; split; assumption|].
  intros Hle c1 c2 H1 H2.
  rewrite Hc1 in H1. apply color_inj in H1. subst c1.
  rewrite Hb2 in H2. apply badge_inj in H2. subst c2.
  destruct a1, a2; simpl; lia.
Qed.

(** X7. The gradient of the score circle runs from the colour of the
    score's category to that of the same category or of the next lower
    one; it is a single colour exactly for the scores from 90 up, from
    70 to 79, from 50 to 59 and below 40. *)
Theorem score_circle_gradient (score : Z) :
  exists c c',
    scoreCircleBackground score
    = lit "linear-gradient(135deg, " ++ color c ++ lit " 0%, "
        ++ color c' ++ lit " 100%)"
    /\ getScoreBadge score = badge c
    /\ level c - 1 <= level c' <= level c
    /\ (c' = c <->
        90 <= score \/ 70 <= score < 80 \/ 50 <= score < 60 \/ score < 40).
Proof.
  destruct (tier_of_score score) as (c & Hb & Hc & Ht).
  destruct (tier_of_score (score - 10)) as (c' & _ & Hc' & Ht').
  exists c, c'. unfold scoreCircleBackground. rewrite Hc, Hc'.
  split; [reflexivity|]. split; [exact Hb|].
  destruct c, c'; simpl; (split; [lia|]); split;
    solve [ reflexivity | discriminate | lia | intros; lia
          | intros [?|[?|[?|?]]]; lia ].
Qed.

(** X8. When no result carries a rank (or only the rank 0), the cards
    are numbered 1, 2, ... in the order shown; a result with a rank
    other than 0 shows that rank at whatever position it stands. *)
Theorem rank_labels (expandedId : option nat) (sorted : list RankedResult.t) :
  (Forall (fun r => rank r = None \/ rank r = Some 0) sorted ->
   rankShown <$> imap (renderCard expandedId) sorted
   = (fun i => Z.of_nat i + 1) <$> seq 0 (length sorted))
  /\ (forall i res z,
        sorted !! i = Some res -> rank res = Some z -> z <> 0 ->
        rankShown <$> (imap (renderCard expandedId) sorted !! i) = Some z).
Proof.
  split.
  - intros Hall. apply list_eq. intros i.
    rewrite !list_lookup_fmap, list_lookup_imap.
    destruct (sorted !! i) as [res|] eqn:Hi.
    + rewrite lookup_seq_lt by (apply lookup_lt_Some in Hi; exact Hi).
      simpl. f_equal. unfold rankLabel.
      rewrite Forall_forall in Hall.
      destruct (Hall res) as [-> | ->];
        [apply list_elem_of_lookup; eauto | reflexivity | reflexivity].
    + rewrite lookup_seq_ge by (apply lookup_ge_None in Hi; exact Hi).
      reflexivity.
  - intros i res z Hi Hr Hz. rewrite list_lookup_imap, Hi. simpl.
    f_equal. unfold rankLabel. rewrite Hr.
    destruct (Z.eqb_spec z 0); [contradiction | reflexivity].
Qed.

Lemma expanded_iff expandedId (sorted : list RankedResult.t) i c :
  imap (renderCard expandedId) sorted !! i = Some c ->
  isExpanded c = true <-> expandedId = Some i.
Proof.
  rewrite list_lookup_imap. destruct (sorted !! i); [|discriminate].
  intros [= <-]. simpl. apply bool_decide_eq_true.
Qed.

(** X9. At most one card is expanded, the one whose position is
    [expandedId]; only an expanded card has a body. After a click on
    the header of card [i], no card but [i] is expanded, and [i] is
    exactly if it was not before. *)
Theorem one_card_expanded (expandedId : option nat)
  (sorted : list RankedResult.t) (i : nat) :
  let cs := imap (renderCard expandedId) sorted in
  let cs' := imap (renderCard (toggleExpanded expandedId i)) sorted in
  (forall j k cj ck,
      cs !! j = Some cj -> cs !! k = Some ck ->
      isExpanded cj = true -> isExpanded ck = true -> j = k)
  /\ (forall j c, cs !! j = Some c ->
        (isExpanded c = true <-> expandedId = Some j)
        /\ (is_Some (bodyShown c) <-> isExpanded c = true))
  /\ (forall j c, cs' !! j = Some c ->
        isExpanded c = true <-> j = i /\ expandedId <> Some i).
Proof.
  intros cs cs'. split; [|split].
  - intros j k cj ck Hj Hk Ej Ek.
    apply (expanded_iff _ _ _ _ Hj) in Ej.
    apply (expanded_iff _ _ _ _ Hk) in Ek. congruence.
  - intros j c Hj. split; [exact (expanded_iff _ _ _ _ Hj)|].
    unfold cs in Hj. rewrite list_lookup_imap in Hj.
    destruct (sorted !! j); [|discriminate]. injection Hj as <-. simpl.
    destruct (bool_decide _); split; intros H;
      try reflexivity; try discriminate; eauto.
    destruct H; discriminate.
  - intros j c Hj. rewrite (expanded_iff _ _ _ _ Hj).
    unfold toggleExpanded. destruct (decide (expandedId = Some i)).
    + split; [discriminate | intros [_ H]; contradiction].
    + split; [intros [= ->]; split; [reflexivity | assumption]
             | intros [-> _]; reflexivity].
Qed.

End CardProperties.

Section ListProperties.

Import RankedResult Results ResultsSpec ResultsCards ViewSpec.

Variable localeCompare : jsstring -> jsstring -> Z.
Variable numberToString : Number.double -> jsstring.

Let render := Results localeCompare numberToString.

Lemma atLeast_none threshold rs :
  atLeast threshold rs = [] <-> Forall (fun r => score r < threshold) rs.
Proof.
  unfold atLeast. induction rs as [|r rs IH]; simpl.
  - split; [constructor | reflexivity].
  - destruct (Z.leb_spec threshold (score r)) as [Hge|Hlt].
    + split; [discriminate|]. intros Hall. inversion Hall; subst. lia.
    + rewrite IH. split; [constructor; assumption|].
      intros Hall. inversion Hall; assumption.
Qed.

Lemma atLeast_all threshold rs :
  length (atLeast threshold rs) = length rs <->
  Forall (fun r => threshold <= score r) rs.
Proof.
  induction rs as [|r rs IH]; simpl.
  - split; [constructor | reflexivity].
  - pose proof (sublist_length _ _ (atLeast_sublist threshold rs)) as Hle.
    unfold atLeast in *. simpl.
    destruct (Z.leb_spec threshold (score r)) as [Hge|Hlt]; simpl.
    + split.
      * intros Hlen. constructor; [assumption|]. apply IH. lia.
      * intros Hall. inversion Hall; subst. f_equal. apply IH. assumption.
    + split; [lia|]. intros Hall. inversion Hall; subst. lia.
Qed.

(** X10. A result set that is not empty never gets the placeholder:
    the header counts the results at or above the threshold out of all
    of them, and when the threshold hides every result the list is the
    "No results match your filter" line. All results are shown exactly
    when none scores below the threshold. *)
Theorem threshold_hiding_all_results h l rs sortBy threshold expandedId :
  arrays h !! l = Some rs ->
  rs <> [] ->
  exists v h' list,
    render (Some l) sortBy threshold h = Some (Listing v, h')
    /\ page expandedId (Listing v)
       = Listed (length (atLeast threshold rs)) (length rs) (stats v) list
    /\ (length (atLeast threshold rs) <= length rs)%nat
    /\ (list = NoResultsMatch <->
        Forall (fun r => score r < threshold) rs)
    /\ (length (cardsOf (page expandedId (Listing v)))
        = length (atLeast threshold rs))
    /\ (length (atLeast threshold rs) = length rs <->
        Forall (fun r => threshold <= score r) rs).
Proof.
  intros Hl Hne. unfold render.
  rewrite (Results_run localeCompare numberToString h l rs sortBy
             threshold Hl Hne).
  set (view := stableSort (compareBy localeCompare sortBy)
                 (atLeast threshold rs)).
  assert (Hlen : length view = length (atLeast threshold rs)).
  { unfold view. rewrite stableSort_perm. reflexivity. }
  eexists _, _, (resultsList expandedId view). split; [reflexivity|].
  unfold page. cbn [cards stats total]. rewrite Hlen.
  split; [reflexivity|].
  split; [apply sublist_length, atLeast_sublist|].
  split; [|split; [|apply atLeast_all]].
  - rewrite <- atLeast_none. unfold resultsList. rewrite Hlen.
    destruct (atLeast threshold rs) as [|r kept]; simpl.
    + split; reflexivity.
    + split; discriminate.
  - unfold cardsOf, resultsList. rewrite Hlen.
    destruct (atLeast threshold rs) as [|r kept] eqn:Hk; simpl.
    + reflexivity.
    + rewrite length_imap. exact Hlen.
Qed.

Lemma compareBy_name a b :
  compareBy localeCompare (lit "name") a b = localeCompare (name a) (name b).
Proof.
  unfold compareBy.
  destruct (decide (lit "name" = lit "score")) as [E|_]; [discriminate E|].
  destruct (decide (lit "name" = lit "name")); [reflexivity | congruence].
Qed.

(** A comparator that orders sorts: each element is not after the ones
    behind it. *)
Lemma insertSorted_ordered cmp x l :
  Consistent cmp ->
  StronglySorted (fun a b => cmp a b <= 0) l ->
  StronglySorted (fun a b => cmp a b <= 0) (insertSorted cmp x l).
Proof.
  intros [Htotal Htrans]. induction 1 as [|y l Hs IH Hy]; simpl.
  - constructor; constructor.
  - destruct (Z.ltb_spec 0 (cmp x y)) as [Hlt|Hge].
    + constructor; [exact IH|].
      assert (Hp : Forall (fun b => cmp y b <= 0) (x :: l)).
      { constructor; [apply Htotal, Hlt | exact Hy]. }
      rewrite <- (insertSorted_perm cmp x l) in Hp. exact Hp.
    + constructor; [constructor; assumption|].
      constructor; [exact Hge|].
      eapply Forall_impl; [exact Hy|].
      intros z Hz. simpl in Hz. eapply Htrans; eassumption.
Qed.

Lemma stableSort_ordered cmp l :
  Consistent cmp ->
  StronglySorted (fun a b => cmp a b <= 0) (stableSort cmp l).
Proof.
  intros Hc. induction l as [|x l IH]; simpl; [constructor|].
  apply insertSorted_ordered; assumption.
Qed.

Lemma StronglySorted_weaken {A} (R R' : A -> A -> Prop) (l : list A) :
  (forall a b, R a b -> R' a b) ->
  StronglySorted R l -> StronglySorted R' l.
Proof.
  intros HR. induction 1 as [|a l _ IH Ha]; constructor; [exact IH|].
  eapply Forall_impl; [exact Ha | apply HR].
Qed.

(** X11. With the name key and a [localeCompare] that orders the
    names, the results shown are the filtered ones with every name not
    after the names behind it; the result set holds what it held. *)
Theorem sort_by_name_orders h l rs threshold :
  Consistent (fun a b => localeCompare (name a) (name b)) ->
  arrays h !! l = Some rs ->
  exists out h',
    render (Some l) (lit "name") threshold h = Some (out, h')
    /\ visible out ≡ₚ atLeast threshold rs
    /\ StronglySorted
         (fun a b => localeCompare (name a) (name b) <= 0) (visible out)
    /\ arrays h' !! l = Some rs.
Proof.
  intros Hc Hl. unfold render.
  assert (Hc' : Consistent (compareBy localeCompare (lit "name"))).
  { destruct Hc as [H1 H2]. split.
    - intros x y. rewrite !compareBy_name. apply H1.
    - intros x y z. rewrite !compareBy_name. apply H2. }
  destruct (decide (rs = [])) as [->|Hne].
  - exists EmptyState, h. rewrite Results_empty by exact Hl. simpl.
    split; [reflexivity|]. split; [reflexivity|].
    split; [constructor | exact Hl].
  - destruct (Results_listing localeCompare numberToString h l rs
                (lit "name") threshold Hl Hne)
      as (v & h' & Hrun & Hcards & _ & _ & Hframe).
    exists (Listing v), h'. split; [exact Hrun|]. simpl. rewrite Hcards.
    split; [apply stableSort_perm|].
    split; [|rewrite Hframe; [exact Hl | rewrite Hl; eauto]].
    apply (StronglySorted_weaken
             (fun a b => compareBy localeCompare (lit "name") a b <= 0)).
    + intros a b. rewrite compareBy_name. tauto.
    + apply stableSort_ordered, Hc'.
Qed.

(** X12. With the score key, when some result reaches the
    threshold, the first card is a result with the top score of the
    stats: no result of the whole set scores higher. *)
Theorem first_card_has_top_score h l rs threshold :
  arrays h !! l = Some rs ->
  (exists r, r ∈ rs /\ threshold <= score r) ->
  exists v h' first rest,
    render (Some l) (lit "score") threshold h = Some (Listing v, h')
    /\ cards v = first :: rest
    /\ first ∈ rs
    /\ topScore (stats v) = Number.Int (score first)
    /\ (forall r, r ∈ rs -> score r <= score first).
Proof.
  intros Hl (r0 & Hr0 & Ht0).
  assert (Hne : rs <> []) by (intros ->; inversion Hr0).
  unfold render.
  rewrite (Results_run localeCompare numberToString h l rs (lit "score")
             threshold Hl Hne).
  destruct (mathMax_top rs Hne) as (mx & Hmx & (rm & Hrm & Hrmx) & Hmax).
  set (view := stableSort (compareBy localeCompare (lit "score"))
                 (atLeast threshold rs)).
  assert (Hperm : view ≡ₚ atLeast threshold rs) by apply stableSort_perm.
  assert (Hsorted : StronglySorted byScoreDesc view)
    by apply stableSort_desc.
  assert (Hin : rm ∈ view).
  { rewrite Hperm. apply atLeast_elem. split; [exact Hrm|].
    specialize (Hmax r0 Hr0). lia. }
  destruct view as [|first rest] eqn:Hview; [inversion Hin|].
  eexists _, _, first, rest. split; [reflexivity|].
  cbn [cards stats topScore]. split; [reflexivity|].
  assert (Hfirst : first ∈ rs).
  { assert (Hf : first ∈ atLeast threshold rs)
      by (rewrite <- Hperm; constructor).
    apply atLeast_elem in Hf. tauto. }
  assert (Htop : mx <= score first).
  { apply StronglySorted_inv in Hsorted as [_ Hall].
    apply elem_of_cons in Hin as [->|Hin]; [lia|].
    rewrite Forall_forall in Hall. specialize (Hall rm Hin).
    unfold byScoreDesc in Hall. lia. }
  pose proof (Hmax first Hfirst) as Hle.
  assert (E : score first = mx) by lia. rewrite E.
  split; [exact Hfirst|]. split; [exact Hmx|]. exact Hmax.
Qed.

End ListProperties.

(** * Further properties: the application *)

Section AppProperties.

Import UploadForm SubmissionSpec ViewSpec.

Lemma apply_published st t :
  App.apply st t = foldl App.handleResultsUpdate st (published t).
Proof.
  unfold App.apply, published. revert st.
  induction t as [|e t IH]; intros st; [reflexivity|].
  destruct e; simpl; apply IH.
Qed.

(** X13. A submission that fails leaves the state of [App] as it was,
    so the results section keeps showing what it showed, and the form
    shows an error; one that succeeds replaces the result set by the new
    one (nothing of the old one is kept), counts one more submission and
    has the results section rendered. *)
Theorem failed_submission_keeps_results transport app form :
  0 <= App.submissionCount app ->
  let t := trace (handleSubmit transport form) in
  let after := App.submit transport (app, form) in
  match published t with
  | [] => after.1 = app /\ error after.2 <> []
  | [data] =>
      App.results after.1 = data
      /\ App.submissionCount after.1 = App.submissionCount app + 1
      /\ App.resultsSection after.1 = Some data
  | _ => False
  end.
Proof.
  intros Hcount t after. unfold after, App.submit. cbn [fst snd]. fold t.
  rewrite apply_published.
  destruct (FirstFailure_total (jd form) (files form)) as [r Hr].
  pose proof (handleSubmit_trace transport form r Hr) as Ht.
  unfold t. rewrite Ht. destruct r as [e|].
  - simpl. split; [reflexivity|]. destruct e; discriminate.
  - cbv zeta. destruct (Api.settle _) as [data|err] eqn:Hs; simpl.
    + unfold App.resultsSection. simpl.
      destruct (Z.ltb_spec 0 (App.submissionCount app + 1)); [|lia].
      repeat split; reflexivity.
    + split; [reflexivity|].
      unfold or_else. destruct (truthy (Api.message err)) eqn:Hm.
      * intros E. rewrite E in Hm. discriminate.
      * discriminate.
Qed.

(** X14. After any series of handler runs of the form, [App] has
    counted the result sets that were published and holds the last of
    them; the results section is rendered exactly when there was one,
    and then it is handed that last result set, whatever came before. *)
Theorem app_shows_last_published (t : list Effect) :
  let st := App.apply App.initial t in
  App.submissionCount st = Z.of_nat (length (published t))
  /\ App.results st = default [] (last (published t))
  /\ (App.resultsSection st = None <-> published t = [])
  /\ (forall d, last (published t) = Some d ->
        App.resultsSection st = Some d).
Proof.
  intros st. unfold st. rewrite apply_published.
  assert (H : App.submissionCount
                (foldl App.handleResultsUpdate App.initial (published t))
              = Z.of_nat (length (published t))
              /\ App.results
                   (foldl App.handleResultsUpdate App.initial (published t))
                 = default [] (last (published t))).
  { induction (published t) as [|d ds IH] using rev_ind; [split; reflexivity|].
    rewrite foldl_app, last_snoc, length_app. simpl.
    destruct IH as [IH _]. rewrite IH. split; [lia | reflexivity]. }
  destruct H as [Hc Hr]. split; [exact Hc|]. split; [exact Hr|].
  unfold App.resultsSection. rewrite Hc, Hr.
  destruct (published t) as [|d ds] eqn:Hp.
  - simpl. split; [split; reflexivity|]. intros d Hd. discriminate.
  - destruct (Z.ltb_spec 0 (Z.of_nat (length (d :: ds))));
      [|simpl in *; lia].
    split; [split; discriminate|].
    intros d' Hd'. rewrite Hd'. reflexivity.
Qed.

End AppProperties.

(** * Further properties: instances *)

Section FurtherInstances.

Import UploadForm SubmissionSpec SubmitPhases.
Import RankedResult Results ResultsSpec ResultsCards ViewSpec.

Lemma sent_request_meets_limits_witness :
  let body := Api.rankFormData sampleDescription [pdf "a.pdf" (1 * MiB)] in
  body ∈ networkCalls (trace (handleSubmit answering oneFile))
  /\ body = [(lit "job_description", Api.Field sampleDescription);
             (lit "resumes", Api.Blob (pdf "a.pdf" (1 * MiB)))]
  /\ fieldsOf body = [(lit "job_description", sampleDescription)]
  /\ resumesOf body = [pdf "a.pdf" (1 * MiB)].
Proof.
  intros body.
  assert (Hin : body ∈ networkCalls (trace (handleSubmit answering oneFile))).
  { change (body ∈ [body]). constructor. }
  split; [exact Hin|].
  destruct (sent_request_meets_limits answering oneFile body Hin)
    as (_ & Hb & Hf & Hr & _).
  split; [exact Hb|]. split; [exact Hf | exact Hr].
Defined.

Lemma remote_failure_message_witness :
  error (submit refusing oneFile) = lit "Invalid PDF"
  /\ error (submit timingOut oneFile) = lit "timeout of 120000ms exceeded".
Proof.
  split.
  - destruct (remote_failure_message refusing oneFile _ oneFile_passes
                eq_refl) as (_ & _ & Hs & _).
    apply (Hs (lit "Invalid PDF") eq_refl). discriminate.
  - destruct (remote_failure_message timingOut oneFile _ oneFile_passes
                eq_refl) as (_ & _ & _ & Hn).
    destruct (Hn (or_introl eq_refl)) as [Hm _]. apply Hm. discriminate.
Defined.

Lemma padding_does_not_change_validation_witness :
  let st := formWith (lit "Senior engineer") [pdf "a.pdf" (1 * MiB)] in
  validateInputs (update st (SetJd (lit "  " ++ jd st ++ [10%N; 9%N])))
  = validateInputs st.
Proof.
  intros st. apply padding_does_not_change_validation.
  - repeat constructor.
  - repeat constructor.
Defined.

Lemma submission_in_flight_witness :
  controlsDisabled (inFlight oneFile) = true
  /\ progressShown (inFlight oneFile) = Some 30
  /\ trace (clickSubmit answering (inFlight oneFile)) = [].
Proof.
  pose proof (submission_in_flight answering oneFile None oneFile_passes)
    as (_ & _ & Hd & Hp & _ & _ & _ & Hc).
  split; [exact Hd|]. split; [exact Hp | apply Hc].
Defined.

Lemma badge_and_color_agree_witness :
  level Fair <= level Excellent.
Proof.
  apply (proj2 (badge_and_color_agree 45 85) ltac:(lia) Fair Excellent);
    reflexivity.
Defined.

Lemma rank_labels_witness :
  rankShown <$> imap (renderCard None) [candidate "A" 90; candidate "B" 50]
  = [1; 2].
Proof.
  apply (proj1 (rank_labels None [candidate "A" 90; candidate "B" 50])).
  repeat constructor.
Defined.

Lemma one_card_expanded_witness :
  let sorted := [candidate "A" 90; candidate "B" 50] in
  exists c,
    imap (renderCard (toggleExpanded (Some 0%nat) 1)) sorted !! 1%nat
    = Some c
    /\ isExpanded c = true.
Proof.
  intros sorted.
  destruct (imap (renderCard (toggleExpanded (Some 0%nat) 1)) sorted
              !! 1%nat) as [c|] eqn:Hc; [|discriminate Hc].
  exists c. split; [reflexivity|].
  destruct (one_card_expanded (Some 0%nat) sorted 1) as (_ & _ & H).
  apply (H 1%nat c Hc). split; [reflexivity | discriminate].
Defined.

Lemma threshold_hiding_all_results_witness :
  let rs := [candidate "A" 90; candidate "B" 50] in
  exists v h',
    Results noLocale noToString (Some 1%positive) (lit "score") 95
      (storeWith rs) = Some (Listing v, h')
    /\ page None (Listing v) = Listed 0 2 (stats v) NoResultsMatch.
Proof.
  intros rs.
  destruct (threshold_hiding_all_results noLocale noToString (storeWith rs)
              1%positive rs (lit "score") 95 None eq_refl
              ltac:(discriminate))
    as (v & h' & list & Hrun & Hpage & _ & Hnone & _).
  exists v, h'. split; [exact Hrun|]. rewrite Hpage.
  rewrite (proj2 Hnone); [reflexivity|].
  repeat constructor.
Defined.

Lemma byLength_consistent :
  Consistent (fun a b => byLength (name a) (name b)).
Proof. unfold byLength. split; intros; lia. Defined.

Lemma sort_by_name_orders_witness :
  let rs := [candidate "Bob" 90; candidate "Al" 50] in
  exists out h',
    Results byLength noToString (Some 1%positive) (lit "name") 0
      (storeWith rs) = Some (out, h')
    /\ visible out = [candidate "Al" 50; candidate "Bob" 90].
Proof.
  intros rs.
  destruct (sort_by_name_orders byLength noToString (storeWith rs)
              1%positive rs 0 byLength_consistent eq_refl)
    as (out & h' & Hrun & _).
  exists out, h'. split; [exact Hrun|].
  vm_compute in Hrun. injection Hrun as <- _. reflexivity.
Defined.

Lemma first_card_has_top_score_witness :
  let rs := [candidate "A" 50; candidate "B" 90; candidate "C" 70] in
  exists v h' rest,
    Results noLocale noToString (Some 1%positive) (lit "score") 60
      (storeWith rs) = Some (Listing v, h')
    /\ cards v = candidate "B" 90 :: rest
    /\ topScore (stats v) = Number.Int 90.
Proof.
  intros rs.
  assert (Hr : exists r, r ∈ rs /\ 60 <= score r).
  { exists (candidate "B" 90). split; [|simpl; lia].
    apply list_elem_of_further, list_elem_of_here. }
  destruct (first_card_has_top_score noLocale noToString (storeWith rs)
              1%positive rs 60 eq_refl Hr)
    as (v & h' & first & rest & Hrun & Hcards & _ & Htop & _).
  exists v, h', rest. split; [exact Hrun|].
  assert (Hfirst : first = candidate "B" 90).
  { vm_compute in Hrun. injection Hrun as <- _.
    vm_compute in Hcards. injection Hcards as <- _. reflexivity. }
  rewrite Hfirst in Hcards, Htop. split; [exact Hcards | exact Htop].
Defined.

Lemma failed_submission_keeps_results_witness :
  (App.submit timingOut (App.mkState sampleResults 1, oneFile)).1
  = App.mkState sampleResults 1
  /\ App.resultsSection (App.submit answering (App.initial, oneFile)).1
     = Some sampleResults.
Proof.
  split.
  - exact (proj1 (failed_submission_keeps_results timingOut
                    (App.mkState sampleResults 1) oneFile ltac:(simpl; lia))).
  - exact (proj2 (proj2 (failed_submission_keeps_results answering
                           App.initial oneFile ltac:(simpl; lia)))).
Defined.

Lemma app_shows_last_published_witness :
  App.resultsSection
    (App.apply App.initial
       (trace (handleSubmit answering oneFile)
          ++ trace (handleSubmit timingOut oneFile)))
  = Some sampleResults.
Proof.
  apply app_shows_last_published. reflexivity.
Defined.

(** After a failed submission the form is idle again, and an edit
    removes the error. *)
Lemma form_idle_between_runs_witness :
  let st := submit timingOut oneFile in
  Reachable st
  /\ errorShown st = Some (lit "timeout of 120000ms exceeded")
  /\ controlsDisabled st = false
  /\ errorShown (commit st (trace (handleJdChange st (lit "x")))) = None.
Proof.
  intros st.
  assert (HR : Reachable st).
  { apply ReachSubmit.
    apply (ReachFileChange [pdf "a.pdf" (1 * MiB)]
             (commit initial (trace (handleJdChange initial
                                       sampleDescription)))).
    apply ReachJdChange, ReachInitial. }
  split; [exact HR|]. split; [reflexivity|].
  destruct (form_idle_between_runs st HR) as (Hd & _ & Hjd & _).
  split; [exact Hd|]. apply (Hjd (lit "x")).
Defined.

End FurtherInstances.
